(** * Agent: a shallow embedding of [llmlink/model/Agent.py]

    The ReAct agent of ChainLink: prompt construction, the line-oriented
    parser of model output, tool dispatch and the iterate-until-answer
    loop.  Python strings are modelled as [string] (one [ascii] per code
    point in the Latin-1 range), Python exceptions as an error value of
    a small writer/error monad whose log records printed values and the
    calls made to the model and to the tools. *)

From stdpp Require Import base gmap strings list.
From Stdlib Require Import String Ascii.

Local Open Scope string_scope.
Local Set Warnings "-register-all".
#[local] Arguments String.append : simpl nomatch.

(** ** Python values and exceptions *)

(** The exception classes that the agent's code can raise or meet. *)
Inductive exc_class :=
| IndexError
| KeyError
| TypeError
| ValueError
| RuntimeError
| KeyboardInterrupt
| SystemExit
| GeneratorExit.

(** [issubclass(cls, Exception)]: the three classes that derive from
    [BaseException] directly are not caught by [except Exception]. *)
Definition is_Exception_subclass (c : exc_class) : bool :=
  match c with
  | KeyboardInterrupt | SystemExit | GeneratorExit => false
  | _ => true
  end.

(** An exception object: its class and [str(e)]. *)
Record PyExc := mkExc { exc_cls : exc_class; exc_msg : string }.

(** The values [parse_output] returns: a [str] or a [dict] with string
    keys and string values, in insertion order. *)
Inductive pyval :=
| PStr (s : string)
| PDict (d : list (string * string)).

(** Observable effects: values passed to [print], calls of the model
    and calls of a tool's callable. *)
Inductive event :=
| EPrint (v : pyval)
| ELlm (prompt : string)
| ETool (name input : string).

(** ** A writer/error monad for Python statements *)

Definition M (A : Type) : Type := (list event * (PyExc + A))%type.

Definition ret {A} (a : A) : M A := ([], inr a).

Definition raise {A} (e : PyExc) : M A := ([], inl e).

Definition bind {A B} (m : M A) (k : A -> M B) : M B :=
  match m with
  | (o, inl e) => (o, inl e)
  | (o, inr a) => let '(o', r) := k a in ((o ++ o')%list, r)
  end.

Notation "'let*' x := m 'in' k" := (bind m (fun x => k))
  (at level 200, x name, m at level 100, k at level 200).

Definition emit (ev : event) : M unit := ([ev], inr tt).

Definition print (s : string) : M unit := emit (EPrint (PStr s)).

(** [l[i]] on a Python list, for a non-negative index. *)
Definition py_index {A} (l : list A) (i : nat) : M A :=
  match nth_error l i with
  | Some x => ret x
  | None => raise (mkExc IndexError "list index out of range")
  end.

(** [d[k]] where [d] is a [str] or a [dict]: indexing a [str] with a
    [str] key is a [TypeError]. *)
Definition getitem (v : pyval) (k : string) : M string :=
  match v with
  | PStr _ => raise (mkExc TypeError "string indices must be integers, not 'str'")
  | PDict d =>
      match List.find (fun kv => String.eqb (fst kv) k) d with
      | Some (_, x) => ret x
      | None => raise (mkExc KeyError k)
      end
  end.

(** ** Python string methods *)

Definition char (n : nat) : ascii := ascii_of_nat n.

Definition str1 (c : ascii) : string := String c EmptyString.

Definition NL : string := str1 (char 10).

(** Line boundaries of [str.splitlines] in the Latin-1 range; the
    carriage return is handled apart because [\r\n] is one boundary. *)
Definition is_line_boundary (c : ascii) : bool :=
  match nat_of_ascii c with
  | 10 | 11 | 12 | 28 | 29 | 30 | 133 => true
  | _ => false
  end.

Fixpoint splitlines_aux (s cur : string) : list string :=
  match s with
  | EmptyString => if String.eqb cur "" then [] else [cur]
  | String c rest =>
      if Nat.eqb (nat_of_ascii c) 13 then
        match rest with
        | String d rest' =>
            if Nat.eqb (nat_of_ascii d) 10 then cur :: splitlines_aux rest' ""
            else cur :: splitlines_aux rest ""
        | EmptyString => [cur]
        end
      else if is_line_boundary c then cur :: splitlines_aux rest ""
      else splitlines_aux rest (cur ++ str1 c)
  end.

(** [s.splitlines()] *)
Definition splitlines (s : string) : list string := splitlines_aux s "".

Fixpoint split_aux (sep : ascii) (s cur : string) : list string :=
  match s with
  | EmptyString => [cur]
  | String c rest =>
      if Ascii.eqb c sep then cur :: split_aux sep rest ""
      else split_aux sep rest (cur ++ str1 c)
  end.

(** [s.split(sep)] for a one-character separator. *)
Definition split (sep : ascii) (s : string) : list string := split_aux sep s "".

(** [c.isspace()] in the Latin-1 range. *)
Definition is_space (c : ascii) : bool :=
  match nat_of_ascii c with
  | 9 | 10 | 11 | 12 | 13 | 28 | 29 | 30 | 31 | 32 | 133 | 160 => true
  | _ => false
  end.

Fixpoint drop_spaces (l : list ascii) : list ascii :=
  match l with
  | [] => []
  | c :: r => if is_space c then drop_spaces r else l
  end.

(** [s.strip()] *)
Definition strip (s : string) : string :=
  string_of_list_ascii
    (rev (drop_spaces (rev (drop_spaces (list_ascii_of_string s))))).

(** [sep.join(l)] *)
Definition join (sep : string) (l : list string) : string := String.concat sep l.

(** [s.startswith(p)] *)
Definition startswith (s p : string) : bool := String.prefix p s.

Fixpoint contains_char (c : ascii) (s : string) : bool :=
  match s with
  | EmptyString => false
  | String d r => Ascii.eqb c d || contains_char c r
  end.

(** [range(a, b)] *)
Definition range (a b : nat) : list nat := seq a (b - a).

Definition COLON : ascii := ":".

(** ** [Agent.parse_output] *)

(** The inner loop [for action_idx in range(idx + 2, len(lines))],
    which appends lines to the tool input until a line starting with
    ["Observation:"]. *)
Fixpoint input_loop (lines : list string) (idxs : list nat) (tool_input : string)
  : M string :=
  match idxs with
  | [] => ret tool_input
  | action_idx :: rest =>
      let* l := py_index lines action_idx in
      if startswith l "Observation:" then ret tool_input
      else input_loop lines rest (tool_input ++ NL ++ l)
  end.

(** The outer loop [for idx in range(len(lines))]; [Some v] is a
    [return v] from inside the loop, [None] a loop that ran out. *)
Fixpoint parse_loop (lines : list string) (idxs : list nat) : M (option pyval) :=
  match idxs with
  | [] => ret None
  | idx :: rest =>
      let* l := py_index lines idx in
      if contains_char COLON l then
        let* t := py_index (split COLON l) 0 in
        let type_of_response := strip t in
        if String.eqb type_of_response "Action" then
          let tool := strip (join ":" (skipn 1 (split COLON l))) in
          let* next := py_index lines (idx + 1) in
          let* h := py_index (split COLON next) 0 in
          let* _ := if negb (String.eqb (strip h) "Action Input")
                    then print "Possible problem parsing action input"
                    else ret tt in
          let* next' := py_index lines (idx + 1) in
          let* x := py_index (split COLON next') 1 in
          let* tool_input := input_loop lines (range (idx + 2) (List.length lines)) (strip x) in
          ret (Some (PDict [("Action", "tool"); ("Tool", tool); ("Input", tool_input);
                            ("Thought", join NL (firstn idx lines))]))
        else if String.eqb type_of_response "Final Answer" then
          let* x := py_index (split COLON l) 1 in
          ret (Some (PDict [("Action", "answer"); ("Answer", strip x);
                            ("Thought", join NL (firstn idx lines))]))
        else parse_loop lines rest
      else parse_loop lines rest
  end.

Definition PARSE_WARNING : string :=
  "Warning: No parsable action detected. Be sure to ".

Definition parse_output (output : string) : M pyval :=
  let lines := splitlines output in
  let* r := parse_loop lines (range 0 (List.length lines)) in
  match r with
  | Some v => ret v
  | None => ret (PStr (output ++ NL ++ PARSE_WARNING))
  end.

(** ** Tools and [Agent.run_tool] *)

(** A langchain [Tool]: its name, its description and its callable,
    which returns a string or raises. *)
Record Tool := mkTool {
  name : string;
  description : string;
  func : string -> PyExc + string
}.

(** [the_tool(tool_input)]: the call is recorded, then its result. *)
Definition call_tool (t : Tool) (tool_input : string) : M string :=
  let* _ := emit (ETool (name t) tool_input) in
  match func t tool_input with
  | inl e => raise e
  | inr s => ret s
  end.

(** [try: m except Exception as e: h(e)] *)
Definition try_except_Exception {A} (m : M A) (h : PyExc -> M A) : M A :=
  match m with
  | (o, inl e) =>
      if is_Exception_subclass (exc_cls e)
      then let '(o', r) := h e in ((o ++ o')%list, r)
      else (o, inl e)
  | (o, inr a) => (o, inr a)
  end.

Section AgentDef.

(** The model is any callable [str -> str]; [LS] is whatever state it
    keeps between calls (a stub's call counter, for instance). *)
Variable LS : Type.

Record Agent := mkAgent {
  llm : LS -> string -> LS * string;
  tools : list Tool;
  verbose : bool
}.

(** [{tool.name: tool for tool in self.tools}]: a later tool with the
    same name replaces an earlier one. *)
Definition tool_dict (a : Agent) : gmap string Tool :=
  foldl (fun m t => <[name t := t]> m) ∅ (tools a).

Definition tool_names (a : Agent) : list string := map name (tools a).

Definition tool_descriptions (a : Agent) : string :=
  join (NL ++ NL) (map (fun t => name t ++ ": " ++ description t) (tools a)).

Definition run_tool (a : Agent) (tool_name tool_input : string) : M string :=
  match tool_dict a !! tool_name with
  | Some the_tool =>
      try_except_Exception (call_tool the_tool tool_input)
        (fun e => ret ("Tool encountered an error: " ++ exc_msg e))
  | None => ret ("No tool with the name " ++ tool_name ++ " found")
  end.

End AgentDef.

Arguments llm {LS} _ _ _.
Arguments tools {LS} _.
Arguments verbose {LS} _.
Arguments mkAgent {LS} _ _ _.
Arguments tool_dict {LS} _.
Arguments tool_names {LS} _.
Arguments tool_descriptions {LS} _.
Arguments run_tool {LS} _ _ _.

(** ** [repr] of a list of strings, as [str(self.tool_names)] renders it *)

Definition hex_digit (n : nat) : ascii :=
  if Nat.ltb n 10 then char (48 + n) else char (87 + n).

(** [\xNN] *)
Definition hex_escape (n : nat) : string :=
  "\" ++ "x" ++ str1 (hex_digit (n / 16)) ++ str1 (hex_digit (n mod 16)).

(** [str.isprintable] for one Latin-1 character. *)
Definition is_printable (n : nat) : bool :=
  negb (Nat.ltb n 32 || Nat.eqb n 127 || (Nat.leb 128 n && Nat.leb n 160) || Nat.eqb n 173).

Definition DQUOTE : ascii := char 34.

Fixpoint repr_body (q : ascii) (s : string) : string :=
  match s with
  | EmptyString => ""
  | String c r =>
      let n := nat_of_ascii c in
      let e :=
        if Ascii.eqb c q || Nat.eqb n 92 then "\" ++ str1 c
        else if Nat.eqb n 9 then "\t"
        else if Nat.eqb n 10 then "\n"
        else if Nat.eqb n 13 then "\r"
        else if is_printable n then str1 c
        else hex_escape n in
      e ++ repr_body q r
  end.

(** [repr(s)] for a [str]: single quotes unless the text holds a single
    quote and no double quote. *)
Definition repr_str (s : string) : string :=
  let q := if contains_char "'" s && negb (contains_char DQUOTE s) then DQUOTE else "'"%char in
  str1 q ++ repr_body q s ++ str1 q.

(** [str(l)] for a list of strings. *)
Definition repr_list (l : list string) : string :=
  "[" ++ join ", " (map repr_str l) ++ "]".

(** ** [str.format] with keyword arguments *)

(** The scanner's state: in literal text, just after a ['{'], inside a
    replacement field (its text so far), or just after a ['}']. *)
Inductive fstate :=
| FText
| FOpen
| FField (acc : string)
| FClose.

Definition is_digit (c : ascii) : bool :=
  Nat.leb 48 (nat_of_ascii c) && Nat.leb (nat_of_ascii c) 57.

Fixpoint all_digits (s : string) : bool :=
  match s with
  | EmptyString => true
  | String c r => is_digit c && all_digits r
  end.

(** The text of a field up to the first character that [stop] accepts. *)
Fixpoint take_until (stop : ascii -> bool) (s : string) : string :=
  match s with
  | EmptyString => ""
  | String c r => if stop c then "" else String c (take_until stop r)
  end.

Definition kw_lookup (kw : list (string * string)) (k : string) : option string :=
  match List.find (fun kv => String.eqb (fst kv) k) kw with
  | Some (_, v) => Some v
  | None => None
  end.

(** Resolving one replacement field against the keyword arguments.  An
    empty or numeric first name refers to a positional argument, of
    which there are none; an unknown name is a [KeyError].  A field with
    a conversion, a format spec, an attribute or an index after a known
    name is outside the fragment modelled here ([None]). *)
Definition resolve_field (kw : list (string * string)) (field : string)
  : option (PyExc + string) :=
  let fname := take_until (fun c => Ascii.eqb c "!" || Ascii.eqb c ":") field in
  let first := take_until (fun c => Ascii.eqb c "." || Ascii.eqb c "[") fname in
  if String.eqb first "" then
    Some (inl (mkExc IndexError "Replacement index 0 out of range for positional args tuple"))
  else if all_digits first then
    Some (inl (mkExc IndexError ("Replacement index " ++ first ++ " out of range for positional args tuple")))
  else match kw_lookup kw first with
       | None => Some (inl (mkExc KeyError (repr_str first)))
       | Some v => if String.eqb first field then Some (inr v) else None
       end.

Fixpoint format_aux (kw : list (string * string)) (s : string) (st : fstate) (out : string)
  : option (PyExc + string) :=
  match s with
  | EmptyString =>
      match st with
      | FText => Some (inr out)
      | FOpen => Some (inl (mkExc ValueError "Single '{' encountered in format string"))
      | FField _ => Some (inl (mkExc ValueError "expected '}' before end of string"))
      | FClose => Some (inl (mkExc ValueError "Single '}' encountered in format string"))
      end
  | String c r =>
      match st with
      | FText =>
          if Ascii.eqb c "{" then format_aux kw r FOpen out
          else if Ascii.eqb c "}" then format_aux kw r FClose out
          else format_aux kw r FText (out ++ str1 c)
      | FOpen =>
          if Ascii.eqb c "{" then format_aux kw r FText (out ++ "{")
          else if Ascii.eqb c "}" then
            match resolve_field kw "" with
            | Some (inr v) => format_aux kw r FText (out ++ v)
            | res => res
            end
          else format_aux kw r (FField (str1 c)) out
      | FField acc =>
          if Ascii.eqb c "}" then
            match resolve_field kw acc with
            | Some (inr v) => format_aux kw r FText (out ++ v)
            | res => res
            end
          else if Ascii.eqb c "{" then None
          else format_aux kw r (FField (acc ++ str1 c)) out
      | FClose =>
          if Ascii.eqb c "}" then format_aux kw r FText (out ++ "}")
          else Some (inl (mkExc ValueError "Single '}' encountered in format string"))
      end
  end.

(** [template.format(question=..., tool_names=...)] and the like. *)
Definition format (template : string) (kw : list (string * string)) : option (PyExc + string) :=
  format_aux kw template FText "".

(** ** [Agent.create_prompt] *)

Definition PREFIX : string :=
  "Answer the following question as best you can. You have access to the following tools:".

Definition SUFFIX : string := "Begin" ++ NL ++ NL ++ "Question: {question}" ++ NL.

Definition INSTRUCTIONS : string :=
  "Use the following format:" ++ NL ++ NL ++
  "Question: the input question you must answer" ++ NL ++
  "Thought: you should always think about what to do next" ++ NL ++
  "Action: the action to take, should be one of {tool_names}" ++ NL ++
  "Action Input: The input to the action" ++ NL ++
  "Observation: the result of the action" ++ NL ++
  "... (this Thought/Action/Action Input/Observation can repeat N times)" ++ NL ++
  "Thought: I now know the final answer" ++ NL ++
  "Final Answer: the final answer to the original input question".

(** The f-string is built first, then formatted: the tool descriptions
    are part of the template. *)
Definition create_prompt {LS} (a : Agent LS) (question prefix suffix instructions : string)
  : option (PyExc + string) :=
  format (prefix ++ NL ++ NL ++ tool_descriptions a ++ NL ++ NL ++ instructions ++ NL ++ NL ++ suffix)
    [("question", question); ("tool_names", repr_list (tool_names a))].

(** ** [Agent.run] *)

Section RunDef.

Variable LS : Type.

(** The locals of [run] that live across iterations, with the agent
    ([self]) and the model's own state. *)
Record RunState := mkRunState {
  rs_agent : Agent LS;
  rs_llm : LS;
  rs_prompt : string
}.

(** [{'response': ..., 'full_text': ...}] *)
Record RunResult := mkRunResult { response : string; full_text : string }.

(** One pass of the [while True] body: it loops again or returns. *)
Inductive step_out :=
| Continue (s : RunState)
| Return (res : RunResult) (s : RunState).

Fixpoint prints (vs : list pyval) : M unit :=
  match vs with
  | [] => ret tt
  | v :: r => let* _ := emit (EPrint v) in prints r
  end.

Definition when_verbose (a : Agent LS) (vs : list pyval) : M unit :=
  if verbose a then prints vs else ret tt.

Definition loop_body (s : RunState) : M step_out :=
  let a := rs_agent s in
  let prompt := rs_prompt s in
  let '(ls', response) := llm a (rs_llm s) prompt in
  let* _ := emit (ELlm prompt) in
  let* _ := when_verbose a [PStr "MODEL RESPONSE:"; PStr NL; PStr response; PStr (NL ++ NL)] in
  let* action := parse_output response in
  let* _ := when_verbose a [PStr "PARSED ACTION:"; PStr NL; action; PStr (NL ++ NL)] in
  let* kind := getitem action "Action" in
  if String.eqb kind "tool" then
    let* t := getitem action "Tool" in
    let* i := getitem action "Input" in
    let* tool_response := run_tool a t i in
    let tool_response :=
      if String.eqb tool_response "" then "Tool returned no results" else tool_response in
    let* th := getitem action "Thought" in
    let* t' := getitem action "Tool" in
    let* i' := getitem action "Input" in
    let prompt := prompt ++ th ++ NL ++ "Action: " ++ t' ++ NL ++ "Action Input: " ++ i' ++ NL
                  ++ "Observation: " ++ tool_response ++ NL in
    let* _ := when_verbose a [PStr "NEW PROMPT:"; PStr NL; PStr prompt; PStr (NL ++ NL)] in
    ret (Continue (mkRunState a ls' prompt))
  else
    let* kind' := getitem action "Action" in
    if String.eqb kind' "answer" then
      let* th := getitem action "Thought" in
      let* ans := getitem action "Answer" in
      let prompt := prompt ++ th ++ NL ++ "Final Answer: " ++ ans in
      let* _ := when_verbose a [PStr "FINAL TEXT:"; PStr NL; PStr prompt] in
      let* ans' := getitem action "Answer" in
      ret (Return (mkRunResult ans' prompt) (mkRunState a ls' prompt))
    else ret (Continue (mkRunState a ls' prompt)).

(** The [while True] loop, run for at most [fuel] iterations; [None]
    when the fuel ran out before a [return]. *)
Fixpoint run_loop (fuel : nat) (s : RunState) : M (RunState * option RunResult) :=
  match fuel with
  | O => ret (s, None)
  | S f =>
      let* o := loop_body s in
      match o with
      | Continue s' => run_loop f s'
      | Return res s' => ret (s', Some res)
      end
  end.

(** [run(question)]; [None] when the initial prompt's template lies
    outside the modelled fragment of [str.format]. *)
Definition run (fuel : nat) (a : Agent LS) (ls : LS) (question : string)
  : option (M (RunState * option RunResult)) :=
  match create_prompt a question PREFIX SUFFIX INSTRUCTIONS with
  | None => None
  | Some (inl e) => Some (raise e)
  | Some (inr prompt) =>
      Some (let* _ := when_verbose a [PStr "INITIAL PROMPT:"; PStr NL; PStr prompt; PStr (NL ++ NL)] in
            run_loop fuel (mkRunState a ls prompt))
  end.

End RunDef.

Arguments mkRunState {LS} _ _ _.
Arguments rs_agent {LS} _.
Arguments rs_llm {LS} _.
Arguments rs_prompt {LS} _.
Arguments Continue {LS} _.
Arguments Return {LS} _ _.
Arguments loop_body {LS} _.
Arguments run_loop {LS} _ _.
Arguments run {LS} _ _ _ _.

(** ** Construction: [Agent.__init__] and the property setters *)

(** The Python values a caller may pass as [tools] or [verbose]. *)
Inductive pyarg :=
| ABool (b : bool)
| AInt (z : Z)
| AStr (s : string)
| ANone
| ATool (t : Tool)
| AList (l : list pyarg)
| ATuple (l : list pyarg).

(** [str(type(v))] *)
Definition type_str (v : pyarg) : string :=
  match v with
  | ABool _ => "<class 'bool'>"
  | AInt _ => "<class 'int'>"
  | AStr _ => "<class 'str'>"
  | ANone => "<class 'NoneType'>"
  | ATool _ => "<class 'langchain_core.tools.Tool'>"
  | AList _ => "<class 'list'>"
  | ATuple _ => "<class 'tuple'>"
  end.

(** The list's elements when [all(isinstance(v, Tool) for v in value)]. *)
Fixpoint as_tools (l : list pyarg) : option (list Tool) :=
  match l with
  | [] => Some []
  | ATool t :: r => option_map (cons t) (as_tools r)
  | _ => None
  end.

(** The [tools] setter. *)
Definition set_tools (value : pyarg) : M (list Tool) :=
  match value with
  | AList l =>
      match as_tools l with
      | Some ts => ret ts
      | None => raise (mkExc TypeError "All tools must be langchain Tool objects")
      end
  | ATool t => ret [t]
  | _ => raise (mkExc TypeError ("tools must be langchain Tool or list of Tools, got " ++ type_str value))
  end.

(** The [verbose] setter. *)
Definition set_verbose (value : pyarg) : M bool :=
  match value with
  | ABool b => ret b
  | _ => raise (mkExc TypeError ("verbose must be bool, got " ++ type_str value))
  end.

(** Modelled from the spec: [BaseModel.__init__] (the base class
    [llmlink.model.BaseModel] is not in the sources).  The spec's
    construction contract names no failure other than the two type
    checks, so the base initialiser does nothing observable. *)
Definition BaseModel_init : M unit := ret tt.

(** [Agent(llm, tools, verbose)] *)
Definition Agent_init {LS} (llm_ : LS -> string -> LS * string) (tools_ verbose_ : pyarg)
  : M (Agent LS) :=
  let* _ := BaseModel_init in
  let* ts := set_tools tools_ in
  let* v := set_verbose verbose_ in
  ret (mkAgent llm_ ts v).

(** ** Concrete tools and model stubs *)

Definition tool_search : Tool :=
  mkTool "Search" "look a phrase up" (fun s => inr ("result for " ++ s)).

(** A tool whose callable raises [KeyboardInterrupt]. *)
Definition tool_halt : Tool :=
  mkTool "Halt" "stop at once" (fun _ => inl (mkExc KeyboardInterrupt "")).

(** A tool whose callable raises [RuntimeError('boom')]. *)
Definition tool_fail : Tool :=
  mkTool "Fail" "always fails" (fun _ => inl (mkExc RuntimeError "boom")).

Definition TOOL_CALL_RESPONSE : string :=
  "Thought: I should search" ++ NL ++ "Action: Search" ++ NL ++
  "Action Input: capital of France" ++ NL ++ "Observation: ignored".

Definition FINAL_RESPONSE : string := "Thought: done" ++ NL ++ "Final Answer: Paris".

(** A model stub counting its calls: a tool call first, then an answer. *)
Definition stub_llm (n : nat) (_ : string) : nat * string :=
  (S n, if Nat.eqb n 0 then TOOL_CALL_RESPONSE else FINAL_RESPONSE).

(** A model stub that always answers without any marker. *)
Definition chatty_llm (n : nat) (_ : string) : nat * string := (S n, "no colons here").

Definition stub_agent : Agent nat := mkAgent stub_llm [tool_search] false.

Definition QUESTION : string := "What is the capital of France?".

(** The initial prompt of [stub_agent] for [QUESTION]. *)
Definition stub_prompt0 : string :=
  Eval vm_compute in
    match create_prompt stub_agent QUESTION PREFIX SUFFIX INSTRUCTIONS with
    | Some (inr p) => p
    | _ => ""
    end.

Definition chatty_agent : Agent nat := mkAgent chatty_llm [tool_search] false.

(** The default instructions and suffix around their replacement field. *)
Definition INSTRUCTIONS_HEAD : string :=
  "Use the following format:" ++ NL ++ NL ++
  "Question: the input question you must answer" ++ NL ++
  "Thought: you should always think about what to do next" ++ NL ++
  "Action: the action to take, should be one of ".

Definition INSTRUCTIONS_TAIL : string :=
  NL ++
  "Action Input: The input to the action" ++ NL ++
  "Observation: the result of the action" ++ NL ++
  "... (this Thought/Action/Action Input/Observation can repeat N times)" ++ NL ++
  "Thought: I now know the final answer" ++ NL ++
  "Final Answer: the final answer to the original input question".

Definition SUFFIX_HEAD : string := "Begin" ++ NL ++ NL ++ "Question: ".

(** ** Predicates used in the statements *)

(** [needle in hay] for strings. *)
Fixpoint contains (needle hay : string) : bool :=
  String.prefix needle hay ||
  match hay with
  | EmptyString => false
  | String _ r => contains needle r
  end.

(** [issubclass(cls, LookupError)] *)
Definition is_LookupError (c : exc_class) : bool :=
  match c with
  | IndexError | KeyError => true
  | _ => false
  end.

(** Events of the log that are calls of the model, or of a tool. *)
Definition count_llm_calls (evs : list event) : nat :=
  List.length (List.filter (fun ev => match ev with ELlm _ => true | _ => false end) evs).

Definition count_tool_calls (evs : list event) : nat :=
  List.length (List.filter (fun ev => match ev with ETool _ _ => true | _ => false end) evs).

(** A log holding nothing but [print] calls. *)
Definition is_print (ev : event) : bool :=
  match ev with EPrint _ => true | _ => false end.

Definition quiet {A} (m : M A) : Prop := Forall (fun ev => is_print ev = true) (fst m).

(** The keyword arguments [create_prompt] passes to [str.format]. *)
Definition prompt_kw (q tn : string) : list (string * string) :=
  [("question", q); ("tool_names", tn)].

(** A string with no brace, which [str.format] copies unchanged. *)
Fixpoint brace_free (s : string) : bool :=
  match s with
  | EmptyString => true
  | String c r => negb (Ascii.eqb c "{") && negb (Ascii.eqb c "}") && brace_free r
  end.

(** [renders q tn t u]: [t] is a format template whose only replacement
    fields are [{question}] and [{tool_names}] and whose other braces are
    doubled, and [u] is its text with [q] and [tn] put in their places
    and each doubled brace made single. *)
Inductive renders (q tn : string) : string -> string -> Prop :=
| renders_nil : renders q tn "" ""
| renders_char (c : ascii) (t u : string) :
    Ascii.eqb c "{" = false -> Ascii.eqb c "}" = false ->
    renders q tn t u -> renders q tn (String c t) (String c u)
| renders_question (t u : string) :
    renders q tn t u -> renders q tn ("{question}" ++ t) (q ++ u)
| renders_tool_names (t u : string) :
    renders q tn t u -> renders q tn ("{tool_names}" ++ t) (tn ++ u)
| renders_lbrace (t u : string) :
    renders q tn t u -> renders q tn ("{{" ++ t) ("{" ++ u)
| renders_rbrace (t u : string) :
    renders q tn t u -> renders q tn ("}}" ++ t) ("}" ++ u).

(** The states the [while True] loop passes through: each one the
    [Continue] of an iteration started from the previous one. *)
Inductive loop_reaches {LS} : RunState LS -> RunState LS -> Prop :=
| reaches_refl (s : RunState LS) : loop_reaches s s
| reaches_step (s s' s'' : RunState LS) (evs : list event) :
    loop_body s = (evs, inr (Continue s')) -> loop_reaches s' s'' -> loop_reaches s s''.

(** The agent held by the state an iteration ends in. *)
Definition step_agent {LS} (o : step_out LS) : Agent LS :=
  match o with
  | Continue s' => rs_agent s'
  | Return _ s' => rs_agent s'
  end.

(** [P] holds of the value [m] returns, if it returns. *)
Definition holds_after {A} (P : A -> Prop) (m : M A) : Prop :=
  match snd m with
  | inr a => P a
  | inl _ => True
  end.

(** A [tools] argument the setter accepts: a tool or a list of tools. *)
Definition valid_tools_arg (v : pyarg) : bool :=
  match v with
  | ATool _ => true
  | AList l => match as_tools l with Some _ => true | None => false end
  | _ => false
  end.

Definition is_bool_arg (v : pyarg) : bool :=
  match v with ABool _ => true | _ => false end.

(** The first piece of [l.split(':')], which always exists. *)
Definition pre_colon (l : string) : string := hd "" (split COLON l).

(** A line on which the outer loop of [parse_output] stops: it holds a
    colon and its stripped text before the first colon is ["Action"] or
    ["Final Answer"]. *)
Definition is_marker_line (l : string) : bool :=
  contains_char COLON l &&
  (String.eqb (strip (pre_colon l)) "Action" || String.eqb (strip (pre_colon l)) "Final Answer").

(** What the inner loop of [parse_output] appends to the tool input:
    each following line after a newline, up to the first line that
    starts with ["Observation:"]. *)
Fixpoint input_tail (post : list string) : string :=
  match post with
  | [] => ""
  | l :: r => if startswith l "Observation:" then "" else NL ++ l ++ input_tail r
  end.

(** The two dicts the outer loop of [parse_output] returns. *)
Definition parse_shape (v : pyval) : Prop :=
  (exists t i th, v = PDict [("Action", "tool"); ("Tool", t); ("Input", i); ("Thought", th)]) \/
  (exists ans th, v = PDict [("Action", "answer"); ("Answer", ans); ("Thought", th)]).

(** What the outer loop of [parse_output] can do: print the warning at
    most once, raise [IndexError] or return one of the two dicts. *)
Definition ploop_ok (m : M (option pyval)) : Prop :=
  (fst m = [] \/ fst m = [EPrint (PStr "Possible problem parsing action input")]) /\
  match snd m with
  | inl e => e = mkExc IndexError "list index out of range"
  | inr None => True
  | inr (Some v) => parse_shape v
  end.

(** What one pass of the [while True] body of [run] can do, from the
    state [s]: it calls the model once and at most one tool; it raises
    [IndexError], [TypeError] or an exception that is not an
    [Exception]; it goes on with an Observation block appended to the
    prompt, or returns with a Final Answer block appended. *)
Definition body_ok {LS} (s : RunState LS) (m : M (step_out LS)) : Prop :=
  count_llm_calls (fst m) = 1 /\ count_tool_calls (fst m) <= 1 /\
  match snd m with
  | inl e => exc_cls e = IndexError \/ exc_cls e = TypeError \/ is_Exception_subclass (exc_cls e) = false
  | inr (Continue s') =>
      rs_agent s' = rs_agent s /\
      exists th t i obs, obs <> "" /\
        rs_prompt s' = rs_prompt s ++ th ++ NL ++ "Action: " ++ t ++ NL ++ "Action Input: " ++ i ++ NL
                       ++ "Observation: " ++ obs ++ NL
  | inr (Return res s') =>
      rs_agent s' = rs_agent s /\ full_text res = rs_prompt s' /\
      exists th, rs_prompt s' = rs_prompt s ++ th ++ NL ++ "Final Answer: " ++ response res
  end.

(** The events a non-verbose agent may log: calls of the model and of
    tools, and the parser's warning. *)
Definition non_verbose_event (ev : event) : bool :=
  match ev with
  | EPrint (PStr s) => String.eqb s "Possible problem parsing action input"
  | EPrint _ => false
  | _ => true
  end.

(** Every event of the log of [m] satisfies [P]. *)
Definition logs {A} (P : event -> bool) (m : M A) : Prop := Forall (fun ev => P ev = true) (fst m).

(** ** Generic lemmas: strings and the monad *)

Lemma append_nil_r (s : string) : s ++ "" = s.
Proof. induction s as [|c s IH]; simpl; [reflexivity | now rewrite IH]. Qed.

Lemma append_assoc_s (a b c : string) : (a ++ b) ++ c = a ++ (b ++ c).
Proof. induction a as [|x a IH]; simpl; [reflexivity | now rewrite IH]. Qed.

Lemma append_suffix3 (p a b w : string) : exists pre, p ++ a ++ b ++ w = pre ++ w.
Proof. exists (p ++ a ++ b). now rewrite !append_assoc_s. Qed.

Lemma prefix_app (n b : string) : String.prefix n (n ++ b) = true.
Proof.
  induction n as [|c n IH]; simpl.
  - destruct b; reflexivity.
  - destruct (ascii_dec c c) as [_|E]; [exact IH | now destruct E].
Qed.

Lemma contains_app (n a b : string) : contains n (a ++ n ++ b) = true.
Proof.
  induction a as [|c a IH]; simpl.
  - destruct n as [|c n]; simpl.
    + destruct b; reflexivity.
    + destruct (ascii_dec c c) as [_|E]; [now rewrite prefix_app | now destruct E].
  - rewrite IH. apply orb_true_r.
Qed.

Lemma bind_ret_l {A B} (a : A) (k : A -> M B) : bind (ret a) k = k a.
Proof. unfold bind, ret. now destruct (k a). Qed.

Lemma bind_cons_l {A B} (o : list event) (a : A) (k : A -> M B) :
  bind (o, inr a) k = let '(o', r) := k a in ((o ++ o')%list, r).
Proof. reflexivity. Qed.

Lemma bind_inr_eq {A B} (m : M A) (k : A -> M B) (o : list event) (a : A) :
  m = (o, inr a) -> bind m k = let '(o', r) := k a in ((o ++ o')%list, r).
Proof. now intros ->. Qed.

Lemma bind_inl_eq {A B} (m : M A) (k : A -> M B) (o : list event) (e : PyExc) :
  m = (o, inl e) -> bind m k = (o, inl e).
Proof. now intros ->. Qed.

Lemma emit_eq (ev : event) : emit ev = ([ev], inr tt).
Proof. reflexivity. Qed.

(** Runs one statement whose outcome [E] is known and moves on to the
    rest of the block. *)
Ltac mstep E :=
  first [ rewrite (bind_inr_eq _ _ _ _ E) | rewrite (bind_inl_eq _ _ _ _ E) ]; cbv beta iota.

Lemma split_aux_cons (sep : ascii) (s cur : string) :
  exists h t, split_aux sep s cur = h :: t.
Proof.
  revert cur. induction s as [|c s IH]; intros cur; simpl.
  - eauto.
  - destruct (Ascii.eqb c sep); eauto.
Qed.

Lemma py_index_nth {A} (l : list A) (i : nat) (x : A) :
  nth_error l i = Some x -> py_index l i = ret x.
Proof. unfold py_index. now intros ->. Qed.

Lemma py_index_split_0 (l : string) : py_index (split COLON l) 0 = ret (pre_colon l).
Proof.
  unfold pre_colon, split. destruct (split_aux_cons COLON l "") as (h & t & E).
  rewrite E. reflexivity.
Qed.

(** ** Logging lemmas *)

Lemma quiet_ret {A} (a : A) : quiet (ret a).
Proof. constructor. Qed.

Lemma quiet_raise {A} (e : PyExc) : quiet (A := A) (raise e).
Proof. constructor. Qed.

Lemma quiet_print (s : string) : quiet (print s).
Proof. repeat constructor. Qed.

Lemma quiet_py_index {A} (l : list A) (i : nat) : quiet (py_index l i).
Proof. unfold py_index. destruct (nth_error l i); constructor. Qed.

Lemma quiet_bind {A B} (m : M A) (k : A -> M B) :
  quiet m -> (forall a, quiet (k a)) -> quiet (bind m k).
Proof.
  unfold quiet, bind. destruct m as [o [e|a]]; simpl; intros Hm Hk; [exact Hm|].
  specialize (Hk a). destruct (k a) as [o' r]. simpl in *. now apply Forall_app.
Qed.

Ltac quiet_tac :=
  repeat match goal with
  | |- quiet (bind _ _) => apply quiet_bind; [|intros ?]
  | |- quiet (ret _) => apply quiet_ret
  | |- quiet (raise _) => apply quiet_raise
  | |- quiet (print _) => apply quiet_print
  | |- quiet (py_index _ _) => apply quiet_py_index
  | |- quiet (if ?b then _ else _) => destruct b
  | |- quiet (match ?x with _ => _ end) => destruct x
  end.

Lemma quiet_input_loop (lines : list string) (idxs : list nat) (acc : string) :
  quiet (input_loop lines idxs acc).
Proof.
  revert acc. induction idxs as [|i idxs IH]; intros acc; simpl; quiet_tac; auto.
Qed.

Lemma quiet_parse_loop (lines : list string) (idxs : list nat) :
  quiet (parse_loop lines idxs).
Proof.
  induction idxs as [|i idxs IH]; simpl; quiet_tac; auto using quiet_input_loop.
Qed.

(** [parse_output] only ever prints: it calls neither the model nor a tool. *)
Lemma quiet_parse_output (output : string) : quiet (parse_output output).
Proof. unfold parse_output. quiet_tac; auto using quiet_parse_loop. Qed.

Lemma count_llm_calls_app (o o' : list event) :
  count_llm_calls (o ++ o') = count_llm_calls o + count_llm_calls o'.
Proof. unfold count_llm_calls. now rewrite List.filter_app, List.length_app. Qed.

Lemma count_tool_calls_app (o o' : list event) :
  count_tool_calls (o ++ o') = count_tool_calls o + count_tool_calls o'.
Proof. unfold count_tool_calls. now rewrite List.filter_app, List.length_app. Qed.

Lemma quiet_counts (o : list event) :
  Forall (fun ev => is_print ev = true) o -> count_llm_calls o = 0 /\ count_tool_calls o = 0.
Proof.
  induction 1 as [|ev o Hev _ [IH1 IH2]]; [split; reflexivity|].
  destruct ev; try discriminate. split; assumption.
Qed.

Lemma prints_eq (vs : list pyval) : prints vs = (map EPrint vs, inr tt).
Proof. induction vs as [|v vs IH]; simpl; [reflexivity|]. now rewrite IH. Qed.

Lemma when_verbose_quiet {LS} (a : Agent LS) (vs : list pyval) :
  exists o, when_verbose LS a vs = (o, inr tt) /\ Forall (fun ev => is_print ev = true) o.
Proof.
  unfold when_verbose. destruct (verbose a).
  - rewrite prints_eq. eexists; split; [reflexivity|].
    apply List.Forall_forall. intros ev Hev. apply in_map_iff in Hev as (v & <- & _). reflexivity.
  - exists []. split; [reflexivity|constructor].
Qed.

(** ** Parsing lemmas *)



(** ** Claims *)



(** C9: construction fails with a [TypeError] when [verbose] is not a
    [bool] and when [tools] is neither a [Tool] nor a list of [Tool]s;
    with a valid pair it succeeds. *)
Theorem Agent_init_type_checks {LS} (llm_ : LS -> string -> LS * string)
    (tools_ verbose_ : pyarg) :
  (is_bool_arg verbose_ = false ->
     exists msg, Agent_init llm_ tools_ verbose_ = ([], inl (mkExc TypeError msg))) /\
  (valid_tools_arg tools_ = false ->
     exists msg, Agent_init llm_ tools_ verbose_ = ([], inl (mkExc TypeError msg))) /\
  (valid_tools_arg tools_ = true -> is_bool_arg verbose_ = true ->
     exists a, Agent_init llm_ tools_ verbose_ = ([], inr a)).
Proof.
  unfold Agent_init, BaseModel_init, set_tools, set_verbose, valid_tools_arg, is_bool_arg.
  destruct tools_ as [b|z|s| |t|l|l];
    try (destruct (as_tools l) as [ts|]);
    destruct verbose_ as [b'|z'|s'| |t'|l'|l'];
    cbn; repeat split; intros; try discriminate; eauto.
Qed.

Lemma Agent_init_type_checks_witness :
  (is_bool_arg (AInt 1) = false /\
     exists msg, Agent_init stub_llm (ATool tool_search) (AInt 1) = ([], inl (mkExc TypeError msg))) /\
  (valid_tools_arg (ATuple [ATool tool_search]) = false /\
     exists msg, Agent_init stub_llm (ATuple [ATool tool_search]) (ABool false)
                 = ([], inl (mkExc TypeError msg))) /\
  (valid_tools_arg (AList [ATool tool_search]) = true /\ is_bool_arg (ABool true) = true /\
     exists a, Agent_init stub_llm (AList [ATool tool_search]) (ABool true) = ([], inr a)).
Proof.
  split; [|split].
  - split; [reflexivity|].
    apply (proj1 (Agent_init_type_checks stub_llm (ATool tool_search) (AInt 1))). reflexivity.
  - split; [reflexivity|].
    apply (proj1 (proj2 (Agent_init_type_checks stub_llm (ATuple [ATool tool_search]) (ABool false)))).
    reflexivity.
  - split; [reflexivity|]. split; [reflexivity|].
    apply (proj2 (proj2 (Agent_init_type_checks stub_llm (AList [ATool tool_search]) (ABool true))));
      reflexivity.
Defined.

(** C6 (counterexample): a tool whose callable raises [KeyboardInterrupt]
    is not caught by [except Exception]; [run_tool] raises. *)
Lemma run_tool_keyboard_interrupt_escapes :
  run_tool (mkAgent chatty_llm [tool_halt] false) "Halt" "now"
  = ([ETool "Halt" "now"], inl (mkExc KeyboardInterrupt "")).
Proof. vm_compute. reflexivity. Qed.

(** C6 (amended): [run_tool] does not raise for an unregistered name, and
    does not raise when the tool's callable returns or raises an
    exception of class [Exception]: an unknown name gives
    ["No tool with the name {name} found"], which contains the name; an
    [Exception] [e] gives ["Tool encountered an error: {e}"]; a value
    returned by the callable is returned as it is.  An exception that is
    a [BaseException] but not an [Exception] ([KeyboardInterrupt],
    [SystemExit], [GeneratorExit]) is not caught: [run_tool] raises it,
    after the call. *)
Theorem run_tool_catches_Exception {LS} (a : Agent LS) (tool_name tool_input : string) :
  (tool_dict a !! tool_name = None ->
     run_tool a tool_name tool_input = ([], inr ("No tool with the name " ++ tool_name ++ " found")) /\
     contains tool_name ("No tool with the name " ++ tool_name ++ " found") = true) /\
  (forall t e, tool_dict a !! tool_name = Some t -> func t tool_input = inl e ->
     is_Exception_subclass (exc_cls e) = true ->
     run_tool a tool_name tool_input
     = ([ETool (name t) tool_input], inr ("Tool encountered an error: " ++ exc_msg e))) /\
  (forall t s, tool_dict a !! tool_name = Some t -> func t tool_input = inr s ->
     run_tool a tool_name tool_input = ([ETool (name t) tool_input], inr s)) /\
  (forall t e, tool_dict a !! tool_name = Some t -> func t tool_input = inl e ->
     is_Exception_subclass (exc_cls e) = false ->
     run_tool a tool_name tool_input = ([ETool (name t) tool_input], inl e)).
Proof.
  unfold run_tool. split; [|split; [|split]].
  - intros ->. split; [reflexivity|]. apply contains_app.
  - intros t e -> Hf Hc. unfold call_tool, emit. cbn. rewrite Hf. cbn.
    unfold try_except_Exception. rewrite Hc. reflexivity.
  - intros t s -> Hf. unfold call_tool, emit. cbn. rewrite Hf. reflexivity.
  - intros t e -> Hf Hc. unfold call_tool, emit. cbn. rewrite Hf. cbn.
    unfold try_except_Exception. rewrite Hc. reflexivity.
Qed.

Lemma run_tool_catches_Exception_witness :
  (tool_dict (mkAgent chatty_llm [tool_search] false) !! "Calc" = None /\
   run_tool (mkAgent chatty_llm [tool_search] false) "Calc" "1+1"
   = ([], inr ("No tool with the name " ++ "Calc" ++ " found"))) /\
  (tool_dict (mkAgent chatty_llm [tool_fail] false) !! "Fail" = Some tool_fail /\
   run_tool (mkAgent chatty_llm [tool_fail] false) "Fail" "x"
   = ([ETool "Fail" "x"], inr ("Tool encountered an error: " ++ "boom"))) /\
  (tool_dict (mkAgent chatty_llm [tool_halt] false) !! "Halt" = Some tool_halt /\
   run_tool (mkAgent chatty_llm [tool_halt] false) "Halt" "now"
   = ([ETool "Halt" "now"], inl (mkExc KeyboardInterrupt ""))).
Proof.
  split; [|split].
  - assert (H : tool_dict (mkAgent chatty_llm [tool_search] false) !! "Calc" = None)
      by reflexivity.
    split; [exact H|].
    exact (proj1 (proj1 (run_tool_catches_Exception (mkAgent chatty_llm [tool_search] false)
                           "Calc" "1+1") H)).
  - assert (H : tool_dict (mkAgent chatty_llm [tool_fail] false) !! "Fail" = Some tool_fail)
      by reflexivity.
    split; [exact H|].
    apply (proj1 (proj2 (run_tool_catches_Exception (mkAgent chatty_llm [tool_fail] false)
                           "Fail" "x")) tool_fail (mkExc RuntimeError "boom") H);
      reflexivity.
  - assert (H : tool_dict (mkAgent chatty_llm [tool_halt] false) !! "Halt" = Some tool_halt)
      by reflexivity.
    split; [exact H|].
    apply (proj2 (proj2 (proj2 (run_tool_catches_Exception (mkAgent chatty_llm [tool_halt] false)
                                  "Halt" "now"))) tool_halt (mkExc KeyboardInterrupt "") H);
      reflexivity.
Defined.

(** ** The run loop: one iteration *)

Lemma getitem_str (u k : string) :
  getitem (PStr u) k = ([], inl (mkExc TypeError "string indices must be integers, not 'str'")).
Proof. reflexivity. Qed.

Lemma run_loop_S {LS} (fuel : nat) (s : RunState LS) :
  run_loop (S fuel) s =
  bind (loop_body s) (fun o => match o with
                               | Continue s' => run_loop fuel s'
                               | Return res s' => ret (s', Some res)
                               end).
Proof. reflexivity. Qed.

(** Zeroes the call counts of logs known to hold only prints. *)
Ltac count_tac :=
  repeat rewrite ?count_llm_calls_app, ?count_tool_calls_app;
  repeat match goal with
  | Q : Forall (fun ev => is_print ev = true) ?o |- _ =>
      destruct (quiet_counts o Q) as [Hc1 Hc2]; rewrite ?Hc1, ?Hc2; clear Q Hc1 Hc2
  end;
  cbn; try lia.

(** An iteration whose model output parses to the plain warning string
    calls the model once and raises [TypeError] at [action['Action']]. *)
Lemma loop_body_unparsed {LS} (s : RunState LS) (ls' : LS) (r u : string) (o : list event) :
  llm (rs_agent s) (rs_llm s) (rs_prompt s) = (ls', r) ->
  parse_output r = (o, inr (PStr u)) ->
  exists evs,
    loop_body s = (evs, inl (mkExc TypeError "string indices must be integers, not 'str'")) /\
    count_llm_calls evs = 1 /\ count_tool_calls evs = 0.
Proof.
  intros Hllm Hp. pose proof (quiet_parse_output r) as Q. unfold quiet in Q. rewrite Hp in Q. cbn [fst] in Q.
  unfold loop_body. rewrite Hllm. cbv beta iota.
  destruct (when_verbose_quiet (rs_agent s) [PStr "MODEL RESPONSE:"; PStr NL; PStr r; PStr (NL ++ NL)])
    as (o1 & E1 & Q1).
  destruct (when_verbose_quiet (rs_agent s) [PStr "PARSED ACTION:"; PStr NL; PStr u; PStr (NL ++ NL)])
    as (o2 & E2 & Q2).
  mstep (emit_eq (ELlm (rs_prompt s))). mstep E1. mstep Hp. mstep E2. mstep (getitem_str u "Action").
  eexists. split; [reflexivity|]. simpl fst. split; count_tac.
Qed.

(** Looks up a key of a literal dict in the block under way. *)
Ltac gstep :=
  match goal with
  | |- context [bind (getitem ?d ?k) _] => mstep (eq_refl : getitem d k = ([], inr _))
  end.

(** Runs a [when_verbose] block, which only prints. *)
Ltac vstep :=
  match goal with
  | |- context [bind (when_verbose ?L ?a ?vs) _] =>
      let o := fresh "o" in let E := fresh "E" in let Q := fresh "Q" in
      destruct (when_verbose_quiet a vs) as (o & E & Q); mstep E
  end.

Lemma run_tool_found {LS} (a : Agent LS) (t i tr : string) (tl : Tool) :
  tool_dict a !! t = Some tl -> func tl i = inr tr ->
  run_tool a t i = ([ETool (name tl) i], inr tr).
Proof. intros Ht Hf. unfold run_tool. rewrite Ht. unfold call_tool, emit. cbn. now rewrite Hf. Qed.

(** [run_tool] never calls the model. *)
Lemma run_tool_no_llm {LS} (a : Agent LS) (t i : string) :
  count_llm_calls (fst (run_tool a t i)) = 0.
Proof.
  unfold run_tool. destruct (tool_dict a !! t) as [tl|]; [|reflexivity].
  unfold try_except_Exception, call_tool, emit. cbn.
  destruct (func tl i) as [e|x]; cbn; [|reflexivity].
  destruct (is_Exception_subclass (exc_cls e)); reflexivity.
Qed.

(** An iteration whose model output parses to a tool call runs the tool
    and appends the Thought/Action/Action Input/Observation block. *)
Lemma loop_body_tool {LS} (s : RunState LS) (ls' : LS) (r t i th tr : string)
    (o ot : list event) :
  llm (rs_agent s) (rs_llm s) (rs_prompt s) = (ls', r) ->
  parse_output r = (o, inr (PDict [("Action", "tool"); ("Tool", t); ("Input", i); ("Thought", th)])) ->
  run_tool (rs_agent s) t i = (ot, inr tr) ->
  exists evs,
    loop_body s =
      (evs, inr (Continue (mkRunState (rs_agent s) ls'
        (rs_prompt s ++ th ++ NL ++ "Action: " ++ t ++ NL ++ "Action Input: " ++ i ++ NL
         ++ "Observation: " ++ (if String.eqb tr "" then "Tool returned no results" else tr)
         ++ NL)))) /\
    count_llm_calls evs = 1 /\ count_tool_calls evs = count_tool_calls ot.
Proof.
  intros Hllm Hp Ht. pose proof (run_tool_no_llm (rs_agent s) t i) as Hn.
  rewrite Ht in Hn. cbn [fst] in Hn.
  pose proof (quiet_parse_output r) as Q. unfold quiet in Q.
  rewrite Hp in Q. cbn [fst] in Q.
  unfold loop_body. rewrite Hllm. cbv beta iota.
  mstep (emit_eq (ELlm (rs_prompt s))). vstep. mstep Hp. vstep. gstep.
  rewrite String.eqb_refl. gstep. gstep. mstep Ht. gstep. gstep. gstep. vstep.
  eexists. split; [reflexivity|]. cbn [fst]. split; count_tac; rewrite Hn; lia.
Qed.

(** An iteration whose model output parses to a final answer appends
    the Thought/Final Answer block and returns. *)
Lemma loop_body_answer {LS} (s : RunState LS) (ls' : LS) (r ans th : string) (o : list event) :
  llm (rs_agent s) (rs_llm s) (rs_prompt s) = (ls', r) ->
  parse_output r = (o, inr (PDict [("Action", "answer"); ("Answer", ans); ("Thought", th)])) ->
  exists evs,
    loop_body s =
      (evs, inr (Return (mkRunResult ans (rs_prompt s ++ th ++ NL ++ "Final Answer: " ++ ans))
                        (mkRunState (rs_agent s) ls' (rs_prompt s ++ th ++ NL ++ "Final Answer: " ++ ans)))) /\
    count_llm_calls evs = 1 /\ count_tool_calls evs = 0.
Proof.
  intros Hllm Hp. pose proof (quiet_parse_output r) as Q. unfold quiet in Q.
  rewrite Hp in Q. cbn [fst] in Q.
  unfold loop_body. rewrite Hllm. cbv beta iota.
  mstep (emit_eq (ELlm (rs_prompt s))). vstep. mstep Hp. vstep. gstep.
  change ("answer" =? "tool") with false. cbv beta iota.
  gstep. rewrite String.eqb_refl. gstep. gstep. vstep. gstep.
  eexists. split; [reflexivity|]. cbn [fst]. split; count_tac.
Qed.

(** ** Claims on parsing *)

(** The scenarios of the spec, evaluated. *)
Example parse_search :
  parse_output ("Thought: I should search" ++ NL ++ "Action: Search" ++ NL ++
                "Action Input: capital of France" ++ NL ++ "Observation: ignored")
  = ([], inr (PDict [("Action", "tool"); ("Tool", "Search");
                     ("Input", "capital of France");
                     ("Thought", "Thought: I should search")])).
Proof. vm_compute. reflexivity. Qed.

Example parse_multiline :
  parse_output ("Action: Search" ++ NL ++ "Action Input: line one" ++ NL ++
                "extra line" ++ NL ++ "Observation: x")
  = ([], inr (PDict [("Action", "tool"); ("Tool", "Search");
                     ("Input", "line one" ++ NL ++ "extra line"); ("Thought", "")])).
Proof. vm_compute. reflexivity. Qed.

Example parse_final :
  parse_output ("Thought: done" ++ NL ++ "Final Answer: Paris")
  = ([], inr (PDict [("Action", "answer"); ("Answer", "Paris");
                     ("Thought", "Thought: done")])).
Proof. vm_compute. reflexivity. Qed.

(** C1: on an ["Action"] line the code reads the tool input as
    [lines[idx + 1].split(':')[1]]: the text between the first and the
    second colon of the next line, not all of the text after the first
    colon (compare the tool name, read with [':'.join(...[1:])]). *)
Theorem parse_output_action_input_cut_at_colon :
  parse_output ("Action: Calendar" ++ NL ++ "Action Input: meeting at 12:30")
  = ([], inr (PDict [("Action", "tool"); ("Tool", "Calendar");
                     ("Input", "meeting at 12"); ("Thought", "")])).
Proof. vm_compute. reflexivity. Qed.

(** C2: the final answer is read as [split(':')[1]], cut at the second
    colon of the line. *)
Theorem parse_output_final_answer_cut_at_colon :
  parse_output ("Thought: done" ++ NL ++ "Final Answer: It is 12:30")
  = ([], inr (PDict [("Action", "answer"); ("Answer", "It is 12");
                     ("Thought", "Thought: done")])).
Proof. vm_compute. reflexivity. Qed.

(** C5: when the line after ["Action"] is not an ["Action Input"] line
    and holds no colon, the warning is printed and then [split(':')[1]]
    raises [IndexError]; with no line after ["Action"] at all,
    [lines[idx + 1]] raises [IndexError] before any warning. *)
Theorem parse_output_missing_action_input_raises :
  parse_output ("Action: Search" ++ NL ++ "capital of France")
  = ([EPrint (PStr "Possible problem parsing action input")],
     inl (mkExc IndexError "list index out of range")) /\
  parse_output "Action: Search" = ([], inl (mkExc IndexError "list index out of range")).
Proof. split; vm_compute; reflexivity. Qed.

(** ** Claims on the run loop *)

(** C4 (counterexample): the exception [run] raises on an unparsed model
    output is a [TypeError], which is not a [LookupError]. *)
Lemma run_unparsed_not_LookupError :
  match run 3 chatty_agent 0 QUESTION with
  | Some (_, inl e) => exc_cls e = TypeError /\ is_LookupError (exc_cls e) = false
  | _ => False
  end.
Proof. vm_compute. split; reflexivity. Qed.

(** C4 (amended): when the model's output parses to the plain warning
    string, the iteration that read it raises [TypeError] at
    [action['Action']]: the loop neither returns nor goes on, the model
    has been called once and no tool at all. *)
Theorem run_loop_unparsed_TypeError {LS} (fuel : nat) (s : RunState LS) (ls' : LS)
    (r u : string) (o : list event) :
  llm (rs_agent s) (rs_llm s) (rs_prompt s) = (ls', r) ->
  parse_output r = (o, inr (PStr u)) ->
  exists evs,
    run_loop (S fuel) s = (evs, inl (mkExc TypeError "string indices must be integers, not 'str'")) /\
    count_llm_calls evs = 1 /\ count_tool_calls evs = 0.
Proof.
  intros Hllm Hp. destruct (loop_body_unparsed s ls' r u o Hllm Hp) as (evs & E & C1 & C2).
  exists evs. rewrite run_loop_S. mstep E. auto.
Qed.

Lemma run_loop_unparsed_TypeError_witness :
  exists evs,
    run_loop 4 (mkRunState chatty_agent 0 stub_prompt0)
    = (evs, inl (mkExc TypeError "string indices must be integers, not 'str'")) /\
    count_llm_calls evs = 1 /\ count_tool_calls evs = 0.
Proof.
  apply (run_loop_unparsed_TypeError 3 (mkRunState chatty_agent 0 stub_prompt0) 1
           "no colons here" ("no colons here" ++ NL ++ PARSE_WARNING) []);
    vm_compute; reflexivity.
Defined.

(** The tool calls an iteration makes: one when the name is registered,
    none otherwise. *)
Lemma run_tool_tool_calls {LS} (a : Agent LS) (n i : string) :
  count_tool_calls (fst (run_tool a n i))
  = match tool_dict a !! n with Some _ => 1 | None => 0 end.
Proof.
  unfold run_tool. destruct (tool_dict a !! n) as [t|]; [|reflexivity].
  unfold try_except_Exception, call_tool, emit. cbn.
  destruct (func t i) as [e|x]; cbn; [|reflexivity].
  destruct (is_Exception_subclass (exc_cls e)); reflexivity.
Qed.

(** C3: the steps of the loop.  In any iteration, from any state: when
    the model's output parses to a tool call and [run_tool] gives an
    observation [tr] (the tool's own output, the unknown-tool message or
    the message of a caught exception), the model has been called once,
    the tool once if its name is registered and not at all otherwise,
    the prompt grows by exactly [{thought}\nAction: {tool}\nAction
    Input: {input}\nObservation: {tool_response}\n], where
    [tool_response] is ['Tool returned no results'] when [tr] is empty
    and [tr] otherwise, and the loop goes on from the new state.  When
    the output parses to a final answer, the model has been called once
    and no tool, the prompt grows by [{thought}\nFinal Answer:
    {answer}] and the loop returns the answer with that prompt as
    [full_text].  In particular, a model that first answers with a tool
    call and then with a final answer makes [run] call the model twice
    and the tool once, and return the answer and the final prompt, which
    ends in ["Final Answer: " + answer]. *)
Theorem run_tool_call_then_answer {LS} :
  (forall (s : RunState LS) (ls' : LS) (r t i th tr : string) (o ot : list event) (fuel : nat),
     llm (rs_agent s) (rs_llm s) (rs_prompt s) = (ls', r) ->
     parse_output r = (o, inr (PDict [("Action", "tool"); ("Tool", t); ("Input", i); ("Thought", th)])) ->
     run_tool (rs_agent s) t i = (ot, inr tr) ->
     let s' := mkRunState (rs_agent s) ls'
                 (rs_prompt s ++ th ++ NL ++ "Action: " ++ t ++ NL ++ "Action Input: " ++ i ++ NL
                  ++ "Observation: " ++ (if String.eqb tr "" then "Tool returned no results" else tr)
                  ++ NL) in
     exists evs,
       loop_body s = (evs, inr (Continue s')) /\
       run_loop (S fuel) s = ((evs ++ fst (run_loop fuel s'))%list, snd (run_loop fuel s')) /\
       count_llm_calls evs = 1 /\
       count_tool_calls evs = match tool_dict (rs_agent s) !! t with Some _ => 1 | None => 0 end) /\
  (forall (s : RunState LS) (ls' : LS) (r ans th : string) (o : list event) (fuel : nat),
     llm (rs_agent s) (rs_llm s) (rs_prompt s) = (ls', r) ->
     parse_output r = (o, inr (PDict [("Action", "answer"); ("Answer", ans); ("Thought", th)])) ->
     let full := rs_prompt s ++ th ++ NL ++ "Final Answer: " ++ ans in
     exists evs,
       loop_body s = (evs, inr (Return (mkRunResult ans full) (mkRunState (rs_agent s) ls' full))) /\
       run_loop (S fuel) s = (evs, inr (mkRunState (rs_agent s) ls' full, Some (mkRunResult ans full))) /\
       count_llm_calls evs = 1 /\ count_tool_calls evs = 0) /\
  (forall (a : Agent LS) (question p0 r1 r2 t i th tr ans th' : string)
     (ls0 ls1 ls2 : LS) (tl : Tool) (o1 o2 : list event) (fuel : nat),
     create_prompt a question PREFIX SUFFIX INSTRUCTIONS = Some (inr p0) ->
     llm a ls0 p0 = (ls1, r1) ->
     parse_output r1 = (o1, inr (PDict [("Action", "tool"); ("Tool", t); ("Input", i); ("Thought", th)])) ->
     tool_dict a !! t = Some tl ->
     func tl i = inr tr ->
     llm a ls1 (p0 ++ th ++ NL ++ "Action: " ++ t ++ NL ++ "Action Input: " ++ i ++ NL
                ++ "Observation: " ++ (if String.eqb tr "" then "Tool returned no results" else tr)
                ++ NL) = (ls2, r2) ->
     parse_output r2 = (o2, inr (PDict [("Action", "answer"); ("Answer", ans); ("Thought", th')])) ->
     exists evs full,
       run (S (S fuel)) a ls0 question = Some (evs, inr (mkRunState a ls2 full, Some (mkRunResult ans full))) /\
       full = (p0 ++ th ++ NL ++ "Action: " ++ t ++ NL ++ "Action Input: " ++ i ++ NL
               ++ "Observation: " ++ (if String.eqb tr "" then "Tool returned no results" else tr)
               ++ NL) ++ th' ++ NL ++ "Final Answer: " ++ ans /\
       (exists pre, full = pre ++ "Final Answer: " ++ ans) /\
       count_llm_calls evs = 2 /\ count_tool_calls evs = 1).
Proof.
  split; [|split].
  - intros s ls' r t i th tr o ot fuel Hllm Hp Ht s'.
    destruct (loop_body_tool s ls' r t i th tr o ot Hllm Hp Ht) as (evs & E & C1 & C2).
    exists evs. split; [exact E|]. split; [|split; [exact C1|]].
    + rewrite run_loop_S. mstep E. fold s'. destruct (run_loop fuel s'); reflexivity.
    + rewrite C2. pose proof (run_tool_tool_calls (rs_agent s) t i) as T.
      rewrite Ht in T. exact T.
  - intros s ls' r ans th o fuel Hllm Hp. cbv zeta.
    destruct (loop_body_answer s ls' r ans th o Hllm Hp) as (evs & E & C1 & C2).
    exists evs. split; [exact E|]. split; [|auto].
    rewrite run_loop_S. mstep E. unfold ret. cbv beta iota. now rewrite app_nil_r.
  - intros a question p0 r1 r2 t i th tr ans th' ls0 ls1 ls2 tl o1 o2 fuel Hcp Hl1 Hp1 Ht Hf Hl2 Hp2.
    pose proof (run_tool_found a t i tr tl Ht Hf) as Hrt.
    destruct (loop_body_tool (mkRunState a ls0 p0) ls1 r1 t i th tr o1 [ETool (name tl) i] Hl1 Hp1 Hrt)
      as (evs1 & E1 & C11 & C12).
    match type of E1 with
    | context [Continue ?s1] =>
        destruct (loop_body_answer s1 ls2 r2 ans th' o2 Hl2 Hp2) as (evs2 & E2 & C21 & C22)
    end.
    unfold run. rewrite Hcp. cbv beta iota.
    vstep. rewrite run_loop_S. mstep E1. rewrite run_loop_S. mstep E2.
    do 2 eexists. split; [reflexivity|]. split; [reflexivity|].
    split.
    + apply append_suffix3.
    + cbn [run_loop]. rewrite <- ?app_assoc. cbn [fst]. cbn in C12. split; count_tac.
Qed.

(** The witness runs one tool step with a name that is not registered,
    one final-answer step, and the two-call scenario with [stub_agent]. *)
Lemma run_tool_call_then_answer_witness :
  (exists evs,
     loop_body (mkRunState (mkAgent stub_llm [] false) 0 stub_prompt0)
     = (evs, inr (Continue (mkRunState (mkAgent stub_llm [] false) 1
          (stub_prompt0 ++ "Thought: I should search" ++ NL ++ "Action: " ++ "Search" ++ NL
           ++ "Action Input: " ++ "capital of France" ++ NL ++ "Observation: "
           ++ (if String.eqb ("No tool with the name " ++ "Search" ++ " found") ""
               then "Tool returned no results" else "No tool with the name " ++ "Search" ++ " found")
           ++ NL)))) /\
     run_loop 1 (mkRunState (mkAgent stub_llm [] false) 0 stub_prompt0)
     = ((evs ++ fst (run_loop 0 (mkRunState (mkAgent stub_llm [] false) 1
          (stub_prompt0 ++ "Thought: I should search" ++ NL ++ "Action: " ++ "Search" ++ NL
           ++ "Action Input: " ++ "capital of France" ++ NL ++ "Observation: "
           ++ (if String.eqb ("No tool with the name " ++ "Search" ++ " found") ""
               then "Tool returned no results" else "No tool with the name " ++ "Search" ++ " found")
           ++ NL))))%list,
        snd (run_loop 0 (mkRunState (mkAgent stub_llm [] false) 1
          (stub_prompt0 ++ "Thought: I should search" ++ NL ++ "Action: " ++ "Search" ++ NL
           ++ "Action Input: " ++ "capital of France" ++ NL ++ "Observation: "
           ++ (if String.eqb ("No tool with the name " ++ "Search" ++ " found") ""
               then "Tool returned no results" else "No tool with the name " ++ "Search" ++ " found")
           ++ NL)))) /\
     count_llm_calls evs = 1 /\
     count_tool_calls evs
     = match tool_dict (mkAgent stub_llm [] false) !! "Search" with Some _ => 1 | None => 0 end) /\
  (exists evs,
     loop_body (mkRunState stub_agent 1 stub_prompt0)
     = (evs, inr (Return (mkRunResult "Paris" (stub_prompt0 ++ "Thought: done" ++ NL ++ "Final Answer: " ++ "Paris"))
                         (mkRunState stub_agent 2 (stub_prompt0 ++ "Thought: done" ++ NL ++ "Final Answer: " ++ "Paris")))) /\
     run_loop 1 (mkRunState stub_agent 1 stub_prompt0)
     = (evs, inr (mkRunState stub_agent 2 (stub_prompt0 ++ "Thought: done" ++ NL ++ "Final Answer: " ++ "Paris"),
                  Some (mkRunResult "Paris" (stub_prompt0 ++ "Thought: done" ++ NL ++ "Final Answer: " ++ "Paris")))) /\
     count_llm_calls evs = 1 /\ count_tool_calls evs = 0) /\
  (exists evs full,
     run 2 stub_agent 0 QUESTION = Some (evs, inr (mkRunState stub_agent 2 full, Some (mkRunResult "Paris" full))) /\
     full = (stub_prompt0 ++ "Thought: I should search" ++ NL ++ "Action: " ++ "Search" ++ NL
             ++ "Action Input: " ++ "capital of France" ++ NL ++ "Observation: "
             ++ (if String.eqb "result for capital of France" "" then "Tool returned no results"
                 else "result for capital of France") ++ NL)
            ++ "Thought: done" ++ NL ++ "Final Answer: " ++ "Paris" /\
     (exists pre, full = pre ++ "Final Answer: " ++ "Paris") /\
     count_llm_calls evs = 2 /\ count_tool_calls evs = 1).
Proof.
  split; [|split].
  - exact (proj1 run_tool_call_then_answer (mkRunState (mkAgent stub_llm [] false) 0 stub_prompt0) 1
             TOOL_CALL_RESPONSE "Search" "capital of France" "Thought: I should search"
             ("No tool with the name " ++ "Search" ++ " found") [] [] 0
             eq_refl (eq_refl : parse_output TOOL_CALL_RESPONSE = _) eq_refl).
  - exact (proj1 (proj2 run_tool_call_then_answer) (mkRunState stub_agent 1 stub_prompt0) 2
             FINAL_RESPONSE "Paris" "Thought: done" [] 0
             eq_refl (eq_refl : parse_output FINAL_RESPONSE = _)).
  - apply (proj2 (proj2 run_tool_call_then_answer) stub_agent QUESTION stub_prompt0
             TOOL_CALL_RESPONSE FINAL_RESPONSE
             "Search" "capital of France" "Thought: I should search" "result for capital of France"
             "Paris" "Thought: done" 0 1 2 tool_search [] [] 0);
      vm_compute; reflexivity.
Defined.

(** ** Prompt construction *)

Lemma contains_app_l (n a h : string) : contains n h = true -> contains n (a ++ h) = true.
Proof.
  induction a as [|c a IH]; intros H; [exact H|]. simpl. rewrite IH by exact H. apply orb_true_r.
Qed.

Lemma prefix_app_r (n h b : string) : String.prefix n h = true -> String.prefix n (h ++ b) = true.
Proof.
  revert h. induction n as [|c n IH]; intros h H.
  - destruct (h ++ b); reflexivity.
  - destruct h as [|d h]; [discriminate|]. simpl in *.
    destruct (ascii_dec c d); [now apply IH | discriminate].
Qed.

Lemma contains_cons (n : string) (c : ascii) (r : string) :
  contains n (String c r) = String.prefix n (String c r) || contains n r.
Proof. reflexivity. Qed.

Lemma contains_app_r (n h b : string) : contains n h = true -> contains n (h ++ b) = true.
Proof.
  induction h as [|c h IH]; intros H.
  - destruct n; [destruct b; reflexivity | discriminate].
  - rewrite contains_cons in H. change (String c h ++ b) with (String c (h ++ b)).
    rewrite contains_cons. apply orb_true_iff in H as [H|H].
    + pose proof (prefix_app_r _ _ b H) as H'.
      change (String c h ++ b) with (String c (h ++ b)) in H'. now rewrite H'.
    + rewrite IH by exact H. apply orb_true_r.
Qed.

Lemma contains_self (n : string) : contains n n = true.
Proof.
  pose proof (contains_app n "" "") as H. simpl in H. now rewrite append_nil_r in H.
Qed.

Lemma format_aux_renders (q tn t u : string) :
  renders q tn t u ->
  forall r out, format_aux (prompt_kw q tn) (t ++ r) FText out
                = format_aux (prompt_kw q tn) r FText (out ++ u).
Proof.
  induction 1 as [|c t u Hc1 Hc2 _ IH|t u _ IH|t u _ IH|t u _ IH|t u _ IH]; intros r out.
  - simpl. now rewrite append_nil_r.
  - simpl. rewrite Hc1, Hc2, IH, append_assoc_s. reflexivity.
  - rewrite append_assoc_s. simpl. rewrite IH, append_assoc_s. reflexivity.
  - rewrite append_assoc_s. simpl. rewrite IH, append_assoc_s. reflexivity.
  - rewrite append_assoc_s. simpl. rewrite IH, append_assoc_s. reflexivity.
  - rewrite append_assoc_s. simpl. rewrite IH, append_assoc_s. reflexivity.
Qed.

Lemma renders_app (q tn t1 u1 t2 u2 : string) :
  renders q tn t1 u1 -> renders q tn t2 u2 -> renders q tn (t1 ++ t2) (u1 ++ u2).
Proof.
  induction 1 as [|c t u Hc1 Hc2 _ IH|t u _ IH|t u _ IH|t u _ IH|t u _ IH]; intros H2; simpl.
  - exact H2.
  - constructor; auto.
  - rewrite !append_assoc_s. constructor. auto.
  - rewrite !append_assoc_s. constructor. auto.
  - change (renders q tn ("{{" ++ (t ++ t2)) ("{" ++ (u ++ u2))).
    apply renders_lbrace. auto.
  - change (renders q tn ("}}" ++ (t ++ t2)) ("}" ++ (u ++ u2))).
    apply renders_rbrace. auto.
Qed.

Lemma renders_brace_free (q tn s : string) : brace_free s = true -> renders q tn s s.
Proof.
  induction s as [|c s IH]; intros H; [constructor|].
  simpl in H. apply andb_true_iff in H as [H H3]. apply andb_true_iff in H as [H1 H2].
  apply negb_true_iff in H1, H2. constructor; auto.
Qed.

Lemma renders_join (q tn sep : string) (l : list string) :
  renders q tn sep sep -> Forall (fun x => renders q tn x x) l ->
  renders q tn (join sep l) (join sep l).
Proof.
  intros Hsep. induction 1 as [|x l Hx Hl IH]; [constructor|].
  destruct l as [|y l]; [exact Hx|].
  change (renders q tn (x ++ sep ++ join sep (y :: l)) (x ++ sep ++ join sep (y :: l))).
  apply renders_app; [exact Hx|]. apply renders_app; assumption.
Qed.

Lemma contains_join (n sep : string) (l : list string) :
  In n l -> contains n (join sep l) = true.
Proof.
  induction l as [|x l IH]; intros Hin; [destruct Hin|].
  destruct Hin as [->|Hin].
  - destruct l as [|y l]; [apply contains_self|].
    change (contains n (n ++ sep ++ join sep (y :: l)) = true).
    apply contains_app_r, contains_self.
  - destruct l as [|y l]; [destruct Hin|].
    change (contains n (x ++ sep ++ join sep (y :: l)) = true).
    apply contains_app_l, contains_app_l, IH, Hin.
Qed.

Lemma renders_NL (q tn : string) : renders q tn NL NL.
Proof. apply renders_brace_free. reflexivity. Qed.

Lemma renders_tool_descriptions {LS} (q tn : string) (a : Agent LS) :
  Forall (fun t => brace_free (name t) = true /\ brace_free (description t) = true) (tools a) ->
  renders q tn (tool_descriptions a) (tool_descriptions a).
Proof.
  intros Hb. unfold tool_descriptions. apply renders_join.
  - apply renders_app; apply renders_NL.
  - apply List.Forall_map. eapply List.Forall_impl; [|exact Hb].
    intros t [H1 H2]. apply renders_app; [apply renders_brace_free, H1|].
    apply renders_app; [apply renders_brace_free; reflexivity | apply renders_brace_free, H2].
Qed.

Lemma INSTRUCTIONS_split : INSTRUCTIONS = INSTRUCTIONS_HEAD ++ "{tool_names}" ++ INSTRUCTIONS_TAIL.
Proof. vm_compute. reflexivity. Qed.

Lemma SUFFIX_split : SUFFIX = SUFFIX_HEAD ++ "{question}" ++ NL.
Proof. vm_compute. reflexivity. Qed.

(** Tool descriptions are part of the template: a brace in one of them
    is read as a replacement field. *)
Example create_prompt_brace_in_description :
  create_prompt (mkAgent chatty_llm [mkTool "Search" "look {x} up" (fun s => inr s)] false)
    QUESTION PREFIX SUFFIX INSTRUCTIONS
  = Some (inl (mkExc KeyError "'x'")).
Proof. vm_compute. reflexivity. Qed.

(** ** Claims on prompt construction *)

(** C8 (counterexample): the question reaches the prompt only through
    the suffix's [{question}] field; a suffix without it leaves the
    question out. *)
Lemma create_prompt_suffix_without_question :
  match create_prompt stub_agent QUESTION PREFIX ("Begin" ++ NL) INSTRUCTIONS with
  | Some (inr r) => contains QUESTION r = false
  | _ => False
  end.
Proof. vm_compute. reflexivity. Qed.

(** C8 (amended): [create_prompt] is a function of its arguments.  When
    the prefix, the instructions and the two sides of the suffix around a
    [{question}] field are templates whose only fields are [{question}]
    and [{tool_names}] and whose other braces are doubled ([{{], [}}]),
    and no tool name or description holds a brace, the prompt is the
    prefix, the tool lines joined by blank lines in registration order,
    the instructions and the suffix, with the fields filled in and the
    doubled braces made single; it contains the question, the whole
    block of tool lines and each tool's ["name: description"]. *)
Theorem create_prompt_renders {LS} (a : Agent LS)
    (question prefix_ s1 s2 instructions prefix' s1' s2' instructions' : string) :
  renders question (repr_list (tool_names a)) prefix_ prefix' ->
  renders question (repr_list (tool_names a)) instructions instructions' ->
  renders question (repr_list (tool_names a)) s1 s1' ->
  renders question (repr_list (tool_names a)) s2 s2' ->
  Forall (fun t => brace_free (name t) = true /\ brace_free (description t) = true) (tools a) ->
  let out := prefix' ++ NL ++ NL ++ tool_descriptions a ++ NL ++ NL ++ instructions' ++ NL ++ NL
             ++ s1' ++ question ++ s2' in
  create_prompt a question prefix_ (s1 ++ "{question}" ++ s2) instructions = Some (inr out) /\
  contains question out = true /\
  contains (tool_descriptions a) out = true /\
  Forall (fun t => contains (name t ++ ": " ++ description t) out = true) (tools a).
Proof.
  intros Hp Hi H1 H2 Hb out.
  set (tn := repr_list (tool_names a)) in *.
  pose proof (renders_NL question tn) as N.
  assert (R : renders question tn
                (prefix_ ++ NL ++ NL ++ tool_descriptions a ++ NL ++ NL ++ instructions ++ NL ++ NL
                 ++ s1 ++ "{question}" ++ s2) out).
  { unfold out.
    apply renders_app; [exact Hp|]. apply renders_app; [exact N|]. apply renders_app; [exact N|].
    apply renders_app; [now apply renders_tool_descriptions|].
    apply renders_app; [exact N|]. apply renders_app; [exact N|].
    apply renders_app; [exact Hi|]. apply renders_app; [exact N|]. apply renders_app; [exact N|].
    apply renders_app; [exact H1|]. apply renders_question. exact H2. }
  split; [|split; [|split]].
  - pose proof (format_aux_renders _ _ _ _ R "" "") as F.
    rewrite append_nil_r in F. unfold create_prompt, format.
    unfold prompt_kw, tn in F. rewrite F. reflexivity.
  - unfold out. do 10 apply contains_app_l. apply contains_app_r, contains_self.
  - unfold out. do 3 apply contains_app_l. apply contains_app_r, contains_self.
  - apply List.Forall_forall. intros t Ht. unfold out. do 3 apply contains_app_l.
    apply contains_app_r. unfold tool_descriptions. apply contains_join.
    apply in_map_iff. eauto.
Qed.

Lemma create_prompt_renders_witness :
  let out := ("Reply as " ++ "{" ++ "json" ++ "}") ++ NL ++ NL ++ tool_descriptions stub_agent ++ NL ++ NL
             ++ (INSTRUCTIONS_HEAD ++ repr_list (tool_names stub_agent) ++ INSTRUCTIONS_TAIL)
             ++ NL ++ NL ++ SUFFIX_HEAD ++ QUESTION ++ NL in
  create_prompt stub_agent QUESTION ("Reply as " ++ "{{" ++ "json" ++ "}}") (SUFFIX_HEAD ++ "{question}" ++ NL)
    (INSTRUCTIONS_HEAD ++ "{tool_names}" ++ INSTRUCTIONS_TAIL) = Some (inr out) /\
  contains QUESTION out = true /\
  contains (tool_descriptions stub_agent) out = true /\
  Forall (fun t => contains (name t ++ ": " ++ description t) out = true) (tools stub_agent).
Proof.
  apply (create_prompt_renders stub_agent QUESTION ("Reply as " ++ "{{" ++ "json" ++ "}}") SUFFIX_HEAD NL
           (INSTRUCTIONS_HEAD ++ "{tool_names}" ++ INSTRUCTIONS_TAIL)
           ("Reply as " ++ "{" ++ "json" ++ "}") SUFFIX_HEAD NL
           (INSTRUCTIONS_HEAD ++ repr_list (tool_names stub_agent) ++ INSTRUCTIONS_TAIL)).
  - apply renders_app; [apply renders_brace_free; reflexivity|].
    apply renders_lbrace. apply renders_app; [apply renders_brace_free; reflexivity|].
    exact (renders_rbrace _ _ "" "" (renders_nil _ _)).
  - apply renders_app; [apply renders_brace_free; vm_compute; reflexivity|].
    apply renders_tool_names, renders_brace_free. vm_compute. reflexivity.
  - apply renders_brace_free. vm_compute. reflexivity.
  - apply renders_NL.
  - repeat constructor.
Defined.

(** ** The agent is left alone by [run] *)

Lemma holds_after_bind {A B} (Q : A -> Prop) (P : B -> Prop) (m : M A) (k : A -> M B) :
  holds_after Q m -> (forall a, Q a -> holds_after P (k a)) -> holds_after P (bind m k).
Proof.
  unfold holds_after, bind. destruct m as [o [e|a]]; simpl; intros Hm Hk; [exact I|].
  specialize (Hk a Hm). destruct (k a) as [o' r]. exact Hk.
Qed.

Lemma holds_after_any {A} (P : A -> Prop) (m : M A) : (forall a, P a) -> holds_after P m.
Proof. unfold holds_after. destruct (snd m); auto. Qed.

Lemma holds_after_ret {A} (P : A -> Prop) (a : A) : P a -> holds_after P (ret a).
Proof. auto. Qed.

Lemma holds_after_impl {A} (P P' : A -> Prop) (m : M A) :
  holds_after P m -> (forall a, P a -> P' a) -> holds_after P' m.
Proof. unfold holds_after. destruct (snd m); auto. Qed.

Lemma holds_after_elim {A} (P : A -> Prop) (m : M A) (o : list event) (a : A) :
  holds_after P m -> m = (o, inr a) -> P a.
Proof. intros H ->. exact H. Qed.

Ltac holds_tac :=
  repeat match goal with
  | |- holds_after _ (bind _ _) =>
      apply (holds_after_bind (fun _ => True)); [apply holds_after_any; auto | intros ? _]
  | |- holds_after _ (ret _) => apply holds_after_ret
  | |- holds_after _ (if ?b then _ else _) => destruct b
  end.

(** No statement of the loop body assigns to [self]. *)
Lemma loop_body_keeps_agent {LS} (s : RunState LS) :
  holds_after (fun o => step_agent o = rs_agent s) (loop_body s).
Proof.
  unfold loop_body. cbv zeta.
  destruct (llm (rs_agent s) (rs_llm s) (rs_prompt s)) as [ls' response].
  holds_tac; reflexivity.
Qed.

Lemma run_loop_keeps_agent {LS} (fuel : nat) (s : RunState LS) :
  holds_after (fun r => rs_agent (fst r) = rs_agent s) (run_loop fuel s).
Proof.
  revert s. induction fuel as [|fuel IH]; intros s; [reflexivity|].
  rewrite run_loop_S. eapply holds_after_bind; [apply loop_body_keeps_agent|].
  intros [s'|res s'] Ho; simpl in Ho.
  - eapply holds_after_impl; [apply IH|]. intros r Hr. congruence.
  - apply holds_after_ret. exact Ho.
Qed.

Lemma loop_reaches_agent {LS} (s s' : RunState LS) :
  loop_reaches s s' -> rs_agent s' = rs_agent s.
Proof.
  induction 1 as [s|s s' s'' evs E _ IH]; [reflexivity|].
  pose proof (holds_after_elim _ _ _ _ (loop_body_keeps_agent s) E) as H. simpl in H. congruence.
Qed.

(** C10: [run] never rebinds the agent's model, tools or verbosity: every
    state the loop passes through, and the state it returns in, holds the
    agent it started with, so [tool_dict] and [tool_names] read the same
    before and after. *)
Theorem run_keeps_agent {LS} (fuel : nat) (a : Agent LS) (ls : LS) (question : string) :
  (forall p s', loop_reaches (mkRunState a ls p) s' -> rs_agent s' = a) /\
  (forall evs s' res, run fuel a ls question = Some (evs, inr (s', res)) ->
     rs_agent s' = a /\ llm (rs_agent s') = llm a /\ tools (rs_agent s') = tools a /\
     verbose (rs_agent s') = verbose a /\
     tool_dict (rs_agent s') = tool_dict a /\ tool_names (rs_agent s') = tool_names a).
Proof.
  split.
  - intros p s' H. exact (loop_reaches_agent _ _ H).
  - intros evs s' res H.
    assert (Ha : rs_agent s' = a).
    { unfold run in H.
      destruct (create_prompt a question PREFIX SUFFIX INSTRUCTIONS) as [[e|p]|]; try discriminate.
      injection H as H.
      assert (Hh : holds_after (fun r => rs_agent (fst r) = a)
                     (let* _ := when_verbose LS a [PStr "INITIAL PROMPT:"; PStr NL; PStr p; PStr (NL ++ NL)] in
                      run_loop fuel (mkRunState a ls p))).
      { apply (holds_after_bind (fun _ => True)); [apply holds_after_any; auto|].
        intros _ _. apply (run_loop_keeps_agent fuel (mkRunState a ls p)). }
      exact (holds_after_elim _ _ _ _ Hh H). }
    rewrite Ha. repeat split.
Qed.

Lemma run_keeps_agent_witness :
  (loop_reaches (mkRunState stub_agent 0 stub_prompt0) (mkRunState stub_agent 0 stub_prompt0) /\
   rs_agent (mkRunState stub_agent 0 stub_prompt0) = stub_agent) /\
  exists evs s' res,
    run 2 stub_agent 0 QUESTION = Some (evs, inr (s', res)) /\
    rs_agent s' = stub_agent /\ tool_dict (rs_agent s') = tool_dict stub_agent /\
    tool_names (rs_agent s') = tool_names stub_agent.
Proof.
  split.
  - split; [apply reaches_refl|].
    apply (proj1 (run_keeps_agent 2 stub_agent 0 QUESTION) stub_prompt0). apply reaches_refl.
  - destruct (run 2 stub_agent 0 QUESTION) as [[evs [e|[s' res]]]|] eqn:E;
      [vm_compute in E; discriminate | | vm_compute in E; discriminate].
    exists evs, s', res. split; [reflexivity|].
    destruct (proj2 (run_keeps_agent 2 stub_agent 0 QUESTION) evs s' res E)
      as (H1 & _ & _ & _ & H5 & H6).
    auto.
Defined.

(** ** Tool lookup and dispatch *)

Lemma foldl_insert_notin (ts : list Tool) (m : gmap string Tool) (n : string) :
  Forall (fun t => name t <> n) ts ->
  foldl (fun m t => <[name t := t]> m) m ts !! n = m !! n.
Proof.
  revert m. induction ts as [|t ts IH]; intros m H; [reflexivity|].
  inversion H as [|? ? Ht Hts]; subst. simpl. rewrite IH by exact Hts.
  apply lookup_insert_ne. exact Ht.
Qed.

Lemma foldl_insert_name (ts : list Tool) (m : gmap string Tool) (n : string) :
  (forall t, m !! n = Some t -> name t = n) ->
  forall t, foldl (fun m t => <[name t := t]> m) m ts !! n = Some t -> name t = n.
Proof.
  revert m. induction ts as [|t0 ts IH]; intros m Hm; [exact Hm|].
  simpl. apply IH. intros t Ht.
  destruct (String.eq_dec (name t0) n) as [<-|Hne].
  - rewrite lookup_insert_eq in Ht. congruence.
  - rewrite lookup_insert_ne in Ht by exact Hne. auto.
Qed.

Lemma foldl_insert_some (ts : list Tool) (m : gmap string Tool) (n : string) :
  m !! n <> None -> foldl (fun m t => <[name t := t]> m) m ts !! n <> None.
Proof.
  revert m. induction ts as [|t0 ts IH]; intros m Hm; [exact Hm|].
  simpl. apply IH. destruct (String.eq_dec (name t0) n) as [<-|Hne].
  - rewrite lookup_insert_eq. discriminate.
  - rewrite lookup_insert_ne by exact Hne. exact Hm.
Qed.

Lemma foldl_insert_in (ts : list Tool) (m : gmap string Tool) (n : string) :
  In n (map name ts) -> foldl (fun m t => <[name t := t]> m) m ts !! n <> None.
Proof.
  revert m. induction ts as [|t0 ts IH]; intros m Hin; [destruct Hin|].
  simpl in *. destruct Hin as [<-|Hin]; [|now apply IH].
  apply foldl_insert_some. rewrite lookup_insert_eq. discriminate.
Qed.

(** The tool [tool_dict] holds under a name is registered under it. *)
Lemma tool_dict_name {LS} (a : Agent LS) (n : string) (t : Tool) :
  tool_dict a !! n = Some t -> name t = n.
Proof.
  unfold tool_dict. apply foldl_insert_name. intros t'. rewrite lookup_empty. discriminate.
Qed.

(** [run_tool] raises only what its tool raised and [except Exception]
    let through. *)
Lemma run_tool_raises {LS} (a : Agent LS) (n i : string) (e : PyExc) :
  snd (run_tool a n i) = inl e -> is_Exception_subclass (exc_cls e) = false.
Proof.
  unfold run_tool. destruct (tool_dict a !! n) as [t|]; [|discriminate].
  unfold try_except_Exception, call_tool, emit. cbn.
  destruct (func t i) as [e'|x]; cbn; [|discriminate].
  destruct (is_Exception_subclass (exc_cls e')) eqn:Ec; cbn; [discriminate|].
  intros [= <-]. exact Ec.
Qed.

(** The log of [run_tool]: nothing, or the one call of the tool. *)
Lemma run_tool_log {LS} (a : Agent LS) (n i : string) :
  fst (run_tool a n i) = [] \/ fst (run_tool a n i) = [ETool n i].
Proof.
  unfold run_tool. destruct (tool_dict a !! n) as [t|] eqn:Ht; [|now left].
  right. apply tool_dict_name in Ht.
  unfold try_except_Exception, call_tool, emit. cbn.
  destruct (func t i) as [e|x]; cbn; [|now rewrite Ht].
  destruct (is_Exception_subclass (exc_cls e)); cbn; now rewrite Ht.
Qed.

(** ** What [parse_output] can do *)

Lemma bind_raise {A B} (e : PyExc) (k : A -> M B) : bind (raise e) k = raise e.
Proof. reflexivity. Qed.

Lemma py_index_cases {A} (l : list A) (i : nat) :
  py_index l i = raise (mkExc IndexError "list index out of range") \/ exists x, py_index l i = ret x.
Proof. unfold py_index. destruct (nth_error l i); eauto. Qed.

Lemma input_loop_cases (lines : list string) (idxs : list nat) (acc : string) :
  input_loop lines idxs acc = raise (mkExc IndexError "list index out of range") \/
  exists s, input_loop lines idxs acc = ret s.
Proof.
  revert acc. induction idxs as [|i idxs IH]; intros acc; cbn [input_loop]; [eauto|].
  destruct (py_index_cases lines i) as [E|[x E]]; rewrite E; [now left|].
  rewrite bind_ret_l. destruct (startswith x "Observation:"); [eauto | apply IH].
Qed.

(** Runs a list index or the inner loop of [parse_output], whose
    outcome is not known: it raises [IndexError] or yields a value. *)
Ltac pystep :=
  match goal with
  | |- context [bind (py_index ?l ?i) _] =>
      let x := fresh "x" in let E := fresh "E" in
      destruct (py_index_cases l i) as [E|[x E]]; rewrite E; [rewrite bind_raise | rewrite bind_ret_l]
  | |- context [bind (input_loop ?l ?idxs ?acc) _] =>
      let x := fresh "x" in let E := fresh "E" in
      destruct (input_loop_cases l idxs acc) as [E|[x E]]; rewrite E; [rewrite bind_raise | rewrite bind_ret_l]
  end.

Ltac pyrun := repeat first [ rewrite bind_ret_l | rewrite bind_raise | pystep ].

Lemma parse_loop_ok (lines : list string) (idxs : list nat) : ploop_ok (parse_loop lines idxs).
Proof.
  induction idxs as [|i idxs IH]; [split; [now left | exact I]|].
  cbn [parse_loop]. pystep; [split; [now left | reflexivity]|].
  destruct (contains_char COLON x); [|exact IH].
  rewrite py_index_split_0, bind_ret_l.
  destruct (String.eqb (strip (pre_colon x)) "Action").
  - pystep; [split; [now left | reflexivity]|]. rewrite py_index_split_0, bind_ret_l.
    destruct (negb _); [unfold print, emit; rewrite bind_cons_l | rewrite bind_ret_l];
      pyrun; cbn; (split; [auto | try reflexivity]); left; eauto.
  - destruct (String.eqb (strip (pre_colon x)) "Final Answer"); [|exact IH].
    pyrun; cbn; (split; [auto | try reflexivity]). right. eauto.
Qed.

Lemma parse_output_cases (output : string) :
  (fst (parse_output output) = [] \/
   fst (parse_output output) = [EPrint (PStr "Possible problem parsing action input")]) /\
  match snd (parse_output output) with
  | inl e => e = mkExc IndexError "list index out of range"
  | inr v => v = PStr (output ++ NL ++ PARSE_WARNING) \/ parse_shape v
  end.
Proof.
  unfold parse_output. cbv zeta.
  destruct (parse_loop_ok (splitlines output) (range 0 (List.length (splitlines output)))) as [Hl Hr].
  destruct (parse_loop (splitlines output) (range 0 (List.length (splitlines output))))
    as [o [e|[v|]]]; cbn in *; rewrite ?app_nil_r; auto.
Qed.

(** ** [parse_output] on lines of known shape *)

Lemma parse_loop_skip (lines : list string) (idxs rest : list nat) :
  Forall (fun i => exists l, nth_error lines i = Some l /\ is_marker_line l = false) idxs ->
  parse_loop lines (idxs ++ rest) = parse_loop lines rest.
Proof.
  induction 1 as [|i idxs (l & El & Hm) _ IH]; [reflexivity|].
  cbn [parse_loop app]. rewrite (py_index_nth _ _ _ El), bind_ret_l.
  unfold is_marker_line in Hm. destruct (contains_char COLON l); [|exact IH].
  rewrite py_index_split_0, bind_ret_l. cbn [andb] in Hm. apply orb_false_iff in Hm as [H1 H2].
  rewrite H1, H2. exact IH.
Qed.

(** The outer loop passes over leading lines that carry no marker. *)
Lemma parse_loop_after (pre rest : list string) :
  Forall (fun l => is_marker_line l = false) pre ->
  parse_loop (pre ++ rest) (range 0 (List.length (pre ++ rest)))
  = parse_loop (pre ++ rest) (seq (List.length pre) (List.length rest)).
Proof.
  intros Hpre. unfold range. rewrite Nat.sub_0_r, List.length_app, seq_app.
  apply parse_loop_skip. apply List.Forall_forall. intros i Hi. apply in_seq in Hi.
  destruct (nth_error pre i) as [l|] eqn:El; [|apply nth_error_None in El; lia].
  exists l. split; [rewrite nth_error_app1 by lia; exact El|].
  rewrite List.Forall_forall in Hpre. apply Hpre. eapply nth_error_In; eauto.
Qed.

Lemma nth_error_middle_s (A B : list string) (x : string) :
  nth_error (A ++ x :: B) (List.length A) = Some x.
Proof. rewrite nth_error_app2, Nat.sub_diag by lia. reflexivity. Qed.

Lemma split_aux_two (sep : ascii) (s cur : string) :
  contains_char sep s = true -> exists h x t, split_aux sep s cur = h :: x :: t.
Proof.
  revert cur. induction s as [|c s IH]; intros cur H; [discriminate|].
  cbn [contains_char] in H. cbn [split_aux].
  destruct (Ascii.eqb c sep) eqn:Ec.
  - destruct (split_aux_cons sep s "") as (x & t & E). rewrite E. eauto.
  - rewrite Ascii.eqb_sym, Ec in H. apply IH. exact H.
Qed.

(** On a line with a colon, [split(':')[1]] exists. *)
Lemma py_index_split_1 (l : string) :
  contains_char COLON l = true -> py_index (split COLON l) 1 = ret (nth 1 (split COLON l) "").
Proof.
  intros H. unfold split. destruct (split_aux_two COLON l "" H) as (h & x & t & E).
  rewrite E. reflexivity.
Qed.

Lemma split_aux_none (sep : ascii) (s cur : string) :
  contains_char sep s = false -> split_aux sep s cur = [cur ++ s].
Proof.
  revert cur. induction s as [|c s IH]; intros cur H; cbn [split_aux].
  - now rewrite append_nil_r.
  - cbn [contains_char] in H. apply orb_false_iff in H as [H1 H2].
    rewrite Ascii.eqb_sym, H1. rewrite IH by exact H2. now rewrite append_assoc_s.
Qed.

(** The inner loop appends the following lines up to an Observation. *)
Lemma input_loop_tail (A post : list string) (acc : string) :
  input_loop (A ++ post) (seq (List.length A) (List.length post)) acc = ret (acc ++ input_tail post).
Proof.
  revert A acc. induction post as [|p post IH]; intros A acc.
  - cbn. now rewrite append_nil_r.
  - cbn [List.length seq input_loop].
    rewrite (py_index_nth _ _ p) by apply nth_error_middle_s.
    rewrite bind_ret_l. cbn [input_tail].
    destruct (startswith p "Observation:"); [now rewrite append_nil_r|].
    replace (A ++ p :: post)%list with ((A ++ [p]) ++ post)%list by (now rewrite <- app_assoc).
    replace (S (List.length A)) with (List.length (A ++ [p])) by (rewrite List.length_app; cbn; lia).
    rewrite IH. now rewrite !append_assoc_s.
Qed.

Theorem parse_output_final_answer_line (output l : string) (pre post : list string) :
  splitlines output = (pre ++ l :: post)%list ->
  Forall (fun l' => is_marker_line l' = false) pre ->
  contains_char COLON l = true -> strip (pre_colon l) = "Final Answer" ->
  parse_output output =
    ([], inr (PDict [("Action", "answer"); ("Answer", strip (nth 1 (split COLON l) ""));
                     ("Thought", join NL pre)])).
Proof.
  intros Hs Hpre Hc Hh. unfold parse_output. cbv zeta.
  rewrite Hs, (parse_loop_after pre (l :: post) Hpre).
  cbn [List.length seq parse_loop].
  rewrite (py_index_nth _ _ l) by apply nth_error_middle_s. rewrite bind_ret_l.
  rewrite Hc, py_index_split_0, bind_ret_l, Hh.
  rewrite (proj2 (String.eqb_neq "Final Answer" "Action")) by discriminate.
  rewrite String.eqb_refl, (py_index_split_1 l Hc), !bind_ret_l, take_app_length.
  reflexivity.
Qed.

Theorem parse_output_action_lines (output l n : string) (pre post : list string) :
  splitlines output = (pre ++ l :: n :: post)%list ->
  Forall (fun l' => is_marker_line l' = false) pre ->
  contains_char COLON l = true -> strip (pre_colon l) = "Action" ->
  contains_char COLON n = true ->
  parse_output output =
    (if String.eqb (strip (pre_colon n)) "Action Input" then []
     else [EPrint (PStr "Possible problem parsing action input")],
     inr (PDict [("Action", "tool"); ("Tool", strip (join ":" (skipn 1 (split COLON l))));
                 ("Input", strip (nth 1 (split COLON n) "") ++ input_tail post);
                 ("Thought", join NL pre)])).
Proof.
  intros Hs Hpre Hc Hh Hn. unfold parse_output. cbv zeta.
  rewrite Hs, (parse_loop_after pre (l :: n :: post) Hpre).
  cbn [List.length seq parse_loop].
  rewrite (py_index_nth _ _ l) by apply nth_error_middle_s. rewrite bind_ret_l.
  rewrite Hc, py_index_split_0, bind_ret_l, Hh, String.eqb_refl.
  assert (En : nth_error (pre ++ l :: n :: post) (List.length pre + 1) = Some n).
  { rewrite nth_error_app2 by lia. now replace (List.length pre + 1 - List.length pre) with 1 by lia. }
  assert (Ei : input_loop (pre ++ l :: n :: post)
                 (range (List.length pre + 2) (List.length (pre ++ l :: n :: post)))
                 (strip (nth 1 (split COLON n) ""))
               = ret (strip (nth 1 (split COLON n) "") ++ input_tail post)).
  { assert (Er : range (List.length pre + 2) (List.length (pre ++ l :: n :: post))
                 = seq (List.length (pre ++ [l; n])) (List.length post)).
    { unfold range. rewrite !List.length_app. cbn [List.length]. f_equal; lia. }
    rewrite Er.
    replace (pre ++ l :: n :: post)%list with ((pre ++ [l; n]) ++ post)%list
      by (now rewrite <- app_assoc).
    apply input_loop_tail. }
  rewrite (py_index_nth _ _ _ En), bind_ret_l, py_index_split_0, bind_ret_l, take_app_length.
  destruct (String.eqb (strip (pre_colon n)) "Action Input"); cbn [negb];
    [|unfold print, emit; rewrite bind_cons_l];
    rewrite !bind_ret_l, (py_index_split_1 n Hn), bind_ret_l, Ei, bind_ret_l; reflexivity.
Qed.

Theorem parse_output_action_unfinished (output l : string) (pre rest : list string) :
  splitlines output = (pre ++ l :: rest)%list ->
  Forall (fun l' => is_marker_line l' = false) pre ->
  contains_char COLON l = true -> strip (pre_colon l) = "Action" ->
  match rest with [] => True | n :: _ => contains_char COLON n = false end ->
  snd (parse_output output) = inl (mkExc IndexError "list index out of range").
Proof.
  intros Hs Hpre Hc Hh Hr. unfold parse_output. cbv zeta.
  rewrite Hs, (parse_loop_after pre (l :: rest) Hpre).
  cbn [List.length seq parse_loop].
  rewrite (py_index_nth _ _ l) by apply nth_error_middle_s. rewrite bind_ret_l.
  rewrite Hc, py_index_split_0, bind_ret_l, Hh, String.eqb_refl.
  destruct rest as [|n post].
  - assert (En : nth_error (pre ++ [l]) (List.length pre + 1) = None)
      by (apply nth_error_None; rewrite List.length_app; cbn; lia).
    unfold py_index at 1. rewrite En. reflexivity.
  - assert (En : nth_error (pre ++ l :: n :: post) (List.length pre + 1) = Some n).
    { rewrite nth_error_app2 by lia. now replace (List.length pre + 1 - List.length pre) with 1 by lia. }
    rewrite (py_index_nth _ _ _ En), bind_ret_l, py_index_split_0, bind_ret_l.
    assert (Hsp : split COLON n = [n]) by (unfold split; now rewrite (split_aux_none COLON n "" Hr)).
    destruct (negb _); [unfold print, emit; rewrite bind_cons_l|];
      rewrite ?bind_ret_l, Hsp; reflexivity.
Qed.

(** ** One pass of the loop, whatever the model answers *)

Lemma loop_body_ok {LS} (s : RunState LS) : body_ok s (loop_body s).
Proof.
  destruct (llm (rs_agent s) (rs_llm s) (rs_prompt s)) as [ls' r] eqn:Hllm.
  destruct (parse_output_cases r) as [_ Hr].
  pose proof (quiet_parse_output r) as Q. unfold quiet in Q.
  destruct (parse_output r) as [o [e|v]] eqn:Hp; cbn [snd fst] in Hr, Q.
  - unfold loop_body. rewrite Hllm. cbv beta iota.
    mstep (emit_eq (ELlm (rs_prompt s))). vstep. mstep Hp.
    unfold body_ok. cbn [fst snd]. subst e.
    split; [|split]; [count_tac | count_tac | left; reflexivity].
  - destruct Hr as [->|[(t & i & th & ->)|(ans & th & ->)]].
    + destruct (loop_body_unparsed s ls' r _ o Hllm Hp) as (evs & E & C1 & C2).
      rewrite E. unfold body_ok. cbn [fst snd]. split; [|split]; [exact C1 | lia | right; left; reflexivity].
    + pose proof (run_tool_log (rs_agent s) t i) as Hl.
      pose proof (run_tool_no_llm (rs_agent s) t i) as Hn.
      pose proof (run_tool_raises (rs_agent s) t i) as Hx.
      destruct (run_tool (rs_agent s) t i) as [ot [e|tr]] eqn:Ht; cbn [fst snd] in Hl, Hn, Hx.
      * unfold loop_body. rewrite Hllm. cbv beta iota.
        mstep (emit_eq (ELlm (rs_prompt s))). vstep. mstep Hp. vstep. gstep.
        rewrite String.eqb_refl. gstep. gstep. mstep Ht.
        unfold body_ok. cbn [fst snd]. split; [|split].
        -- count_tac; rewrite Hn; lia.
        -- count_tac; destruct Hl as [-> | ->]; cbn; lia.
        -- right; right. now apply Hx.
      * destruct (loop_body_tool s ls' r t i th tr o ot Hllm Hp Ht) as (evs & E & C1 & C2).
        rewrite E. unfold body_ok. cbn [fst snd rs_agent rs_prompt]. split; [|split]; [exact C1| |].
        -- rewrite C2. destruct Hl as [-> | ->]; cbn; lia.
        -- split; [reflexivity|].
           exists th, t, i, (if String.eqb tr "" then "Tool returned no results" else tr).
           split; [|reflexivity].
           destruct (String.eqb tr "") eqn:Etr; [discriminate|].
           apply String.eqb_neq in Etr. exact Etr.
    + destruct (loop_body_answer s ls' r ans th o Hllm Hp) as (evs & E & C1 & C2).
      rewrite E. unfold body_ok. cbn [fst snd rs_agent rs_prompt full_text response].
      split; [exact C1|]. split; [lia|]. split; [reflexivity|]. split; [reflexivity|].
      exists th. reflexivity.
Qed.

(** The [while True] loop, over all its iterations. *)
Lemma run_loop_ok {LS} (fuel : nat) (s : RunState LS) :
  count_tool_calls (fst (run_loop fuel s)) <= count_llm_calls (fst (run_loop fuel s)) /\
  match snd (run_loop fuel s) with
  | inl e => exc_cls e = IndexError \/ exc_cls e = TypeError \/ is_Exception_subclass (exc_cls e) = false
  | inr (s', None) => True
  | inr (s', Some res) =>
      full_text res = rs_prompt s' /\
      exists w, full_text res = rs_prompt s ++ w ++ NL ++ "Final Answer: " ++ response res
  end.
Proof.
  revert s. induction fuel as [|fuel IH]; intros s; [split; [cbn; lia | exact I]|].
  rewrite run_loop_S. pose proof (loop_body_ok s) as B.
  destruct (loop_body s) as [o [e|[s'|res s']]]; unfold body_ok in B; cbn [fst snd] in B;
    destruct B as (C1 & C2 & B); unfold bind; cbv beta iota.
  - cbn [fst snd]. split; [lia | exact B].
  - destruct (IH s') as [IH1 IH2].
    destruct (run_loop fuel s') as [o' [e|[s'' [res|]]]]; cbn [fst snd] in IH1, IH2 |- *;
      rewrite count_tool_calls_app, count_llm_calls_app; (split; [lia|]); auto.
    destruct IH2 as [Hf (w & Hw)]. destruct B as (_ & th & t & i & obs & _ & Hp).
    split; [exact Hf|].
    exists ((th ++ NL ++ "Action: " ++ t ++ NL ++ "Action Input: " ++ i ++ NL
             ++ "Observation: " ++ obs ++ NL) ++ w).
    rewrite Hw, Hp. now rewrite !append_assoc_s.
  - cbn [fst snd ret]. rewrite app_nil_r. split; [lia|].
    destruct B as (_ & Hf & th & Hp). split; [exact Hf|]. exists th. now rewrite Hf, Hp.
Qed.

(** [run] raises the error of the initial prompt's [format], or runs the
    loop after the initial prompt, which only prints. *)
Lemma run_cases {LS} (fuel : nat) (a : Agent LS) (ls : LS) (question : string)
    (evs : list event) (r : PyExc + (RunState LS * option (RunResult))) :
  run fuel a ls question = Some (evs, r) ->
  (exists e, create_prompt a question PREFIX SUFFIX INSTRUCTIONS = Some (inl e) /\ evs = [] /\ r = inl e) \/
  (exists p0 o1, create_prompt a question PREFIX SUFFIX INSTRUCTIONS = Some (inr p0) /\
     o1 = (if verbose a then [EPrint (PStr "INITIAL PROMPT:"); EPrint (PStr NL); EPrint (PStr p0);
                              EPrint (PStr (NL ++ NL))] else []) /\
     evs = (o1 ++ fst (run_loop fuel (mkRunState a ls p0)))%list /\
     r = snd (run_loop fuel (mkRunState a ls p0))).
Proof.
  unfold run. destruct (create_prompt a question PREFIX SUFFIX INSTRUCTIONS) as [[e|p0]|];
    intros H; try discriminate.
  - injection H as <- <-. left. eauto.
  - injection H as H. right. exists p0.
    unfold when_verbose in H. destruct (verbose a).
    + rewrite prints_eq in H. unfold bind in H. cbv beta iota in H.
      destruct (run_loop fuel (mkRunState a ls p0)) as [o' r'].
      injection H as <- <-. eexists. split; [reflexivity|]. split; [reflexivity|]. auto.
    + rewrite bind_ret_l in H. rewrite H. eexists. split; [reflexivity|]. auto.
Qed.

(** ** What a non-verbose agent logs *)

Lemma logs_bind {A B} (P : event -> bool) (m : M A) (k : A -> M B) :
  logs P m -> (forall a, logs P (k a)) -> logs P (bind m k).
Proof.
  unfold logs, bind. destruct m as [o [e|a]]; simpl; intros Hm Hk; [exact Hm|].
  specialize (Hk a). destruct (k a) as [o' r]. simpl in *. now apply Forall_app.
Qed.

Lemma logs_ret {A} (P : event -> bool) (a : A) : logs P (ret a).
Proof. constructor. Qed.

Lemma logs_emit (P : event -> bool) (ev : event) : P ev = true -> logs P (emit ev).
Proof. repeat constructor. assumption. Qed.

Lemma logs_getitem (P : event -> bool) (v : pyval) (k : string) : logs P (getitem v k).
Proof.
  unfold getitem. destruct v as [u|d]; [constructor|].
  destruct (List.find _ d) as [[? ?]|]; constructor.
Qed.

Lemma logs_parse_output (r : string) : logs non_verbose_event (parse_output r).
Proof.
  unfold logs. destruct (parse_output_cases r) as [[-> | ->] _]; repeat constructor.
Qed.

Lemma logs_run_tool {LS} (a : Agent LS) (n i : string) : logs non_verbose_event (run_tool a n i).
Proof. unfold logs. destruct (run_tool_log a n i) as [-> | ->]; repeat constructor. Qed.

Lemma loop_body_non_verbose {LS} (s : RunState LS) :
  verbose (rs_agent s) = false -> logs non_verbose_event (loop_body s).
Proof.
  intros Hv. unfold loop_body. cbv zeta.
  destruct (llm (rs_agent s) (rs_llm s) (rs_prompt s)) as [ls' r].
  repeat match goal with
  | |- logs _ (bind _ _) => apply logs_bind; [|intros ?; cbv beta]
  | |- logs _ (ret _) => apply logs_ret
  | |- logs _ (emit _) => apply logs_emit; reflexivity
  | |- logs _ (when_verbose _ _ _) => unfold when_verbose; rewrite Hv; apply logs_ret
  | |- logs _ (getitem _ _) => apply logs_getitem
  | |- logs _ (parse_output _) => apply logs_parse_output
  | |- logs _ (run_tool _ _ _) => apply logs_run_tool
  | |- logs _ (if ?b then _ else _) => destruct b
  end.
Qed.

Lemma logs_bind_eq {A B} (P : event -> bool) (m : M A) (k : A -> M B) :
  logs P m -> (forall o a, m = (o, inr a) -> logs P (k a)) -> logs P (bind m k).
Proof.
  unfold logs, bind. destruct m as [o [e|a]]; simpl; intros Hm Hk; [exact Hm|].
  specialize (Hk o a eq_refl). destruct (k a) as [o' r]. simpl in *. now apply Forall_app.
Qed.

Lemma run_loop_non_verbose {LS} (fuel : nat) (s : RunState LS) :
  verbose (rs_agent s) = false -> logs non_verbose_event (run_loop fuel s).
Proof.
  revert s. induction fuel as [|fuel IH]; intros s Hv; [apply logs_ret|].
  rewrite run_loop_S. pose proof (loop_body_ok s) as B.
  apply logs_bind_eq; [now apply loop_body_non_verbose|].
  intros o [s'|res s'] E; [|apply logs_ret]. apply IH.
  rewrite E in B. unfold body_ok in B. cbn [snd] in B. destruct B as (_ & _ & -> & _). exact Hv.
Qed.

(** ** Further properties of the agent *)

(** [tool_dict] holds a name exactly when some tool is registered under
    it, and then holds the tool registered last under that name. *)
Theorem tool_dict_last_registered {LS} (a : Agent LS) (n : string) :
  (tool_dict a !! n = None <-> ~ In n (tool_names a)) /\
  (forall pre t post, tools a = (pre ++ t :: post)%list -> name t = n ->
     Forall (fun t' => name t' <> n) post -> tool_dict a !! n = Some t).
Proof.
  unfold tool_dict, tool_names. split.
  - split.
    + intros H Hin. exact (foldl_insert_in _ ∅ n Hin H).
    + intros Hn. rewrite foldl_insert_notin; [apply lookup_empty|].
      apply List.Forall_forall. intros t Ht <-. apply Hn. now apply in_map.
  - intros pre t post Ht Hn Hpost. rewrite Ht, foldl_app. cbn [foldl].
    rewrite foldl_insert_notin by exact Hpost. rewrite <- Hn. apply lookup_insert_eq.
Qed.

Lemma tool_dict_last_registered_witness :
  tools (mkAgent chatty_llm [tool_search; mkTool "Search" "search again" (fun s => inr s)] false)
  = ([tool_search] ++ mkTool "Search" "search again" (fun s => inr s) :: [])%list /\
  tool_dict (mkAgent chatty_llm [tool_search; mkTool "Search" "search again" (fun s => inr s)] false)
    !! "Search" = Some (mkTool "Search" "search again" (fun s => inr s)).
Proof.
  split; [reflexivity|].
  apply (proj2 (tool_dict_last_registered
                  (mkAgent chatty_llm [tool_search; mkTool "Search" "search again" (fun s => inr s)] false)
                  "Search") [tool_search] _ []); [reflexivity | reflexivity | constructor].
Defined.

(** [run_tool] calls the tool registered under the requested name once,
    with the given input, and calls nothing when no tool has that name. *)
Theorem run_tool_calls_requested {LS} (a : Agent LS) (tool_name tool_input : string) :
  fst (run_tool a tool_name tool_input)
  = match tool_dict a !! tool_name with
    | Some _ => [ETool tool_name tool_input]
    | None => []
    end.
Proof.
  unfold run_tool. destruct (tool_dict a !! tool_name) as [t|] eqn:Ht; [|reflexivity].
  apply tool_dict_name in Ht.
  unfold try_except_Exception, call_tool, emit. cbn.
  destruct (func t tool_input) as [e|x]; cbn; [|now rewrite Ht].
  destruct (is_Exception_subclass (exc_cls e)); cbn; now rewrite Ht.
Qed.

(** [parse_output] calls neither the model nor a tool, and prints at
    most one line: ["Possible problem parsing action input"]. *)
Theorem parse_output_log (output : string) :
  fst (parse_output output) = [] \/
  fst (parse_output output) = [EPrint (PStr "Possible problem parsing action input")].
Proof. exact (proj1 (parse_output_cases output)). Qed.

(** The only exception [parse_output] raises is [IndexError]. *)
Theorem parse_output_raises_IndexError (output : string) (e : PyExc) :
  snd (parse_output output) = inl e -> e = mkExc IndexError "list index out of range".
Proof.
  intros H. pose proof (proj2 (parse_output_cases output)) as C. rewrite H in C. exact C.
Qed.

Lemma parse_output_raises_IndexError_witness :
  snd (parse_output "Action: Search") = inl (mkExc IndexError "list index out of range") /\
  mkExc IndexError "list index out of range" = mkExc IndexError "list index out of range".
Proof.
  assert (H : snd (parse_output "Action: Search") = inl (mkExc IndexError "list index out of range"))
    by (vm_compute; reflexivity).
  split; [exact H | exact (parse_output_raises_IndexError "Action: Search" _ H)].
Defined.

(** What [parse_output] returns is the output followed by a newline and
    the warning, or a dict with the keys [Action], [Tool], [Input] and
    [Thought] (with [Action] equal to ['tool']), or a dict with the keys
    [Action], [Answer] and [Thought] (with [Action] equal to ['answer']). *)
Theorem parse_output_result_shape (output : string) (v : pyval) :
  snd (parse_output output) = inr v ->
  v = PStr (output ++ NL ++ PARSE_WARNING) \/
  (exists t i th, v = PDict [("Action", "tool"); ("Tool", t); ("Input", i); ("Thought", th)]) \/
  (exists ans th, v = PDict [("Action", "answer"); ("Answer", ans); ("Thought", th)]).
Proof.
  intros H. pose proof (proj2 (parse_output_cases output)) as C. rewrite H in C. exact C.
Qed.

Lemma parse_output_result_shape_witness :
  snd (parse_output ("Thought: done" ++ NL ++ "Final Answer: Paris"))
  = inr (PDict [("Action", "answer"); ("Answer", "Paris"); ("Thought", "Thought: done")]) /\
  (PDict [("Action", "answer"); ("Answer", "Paris"); ("Thought", "Thought: done")]
   = PStr (("Thought: done" ++ NL ++ "Final Answer: Paris") ++ NL ++ PARSE_WARNING) \/
   (exists t i th, PDict [("Action", "answer"); ("Answer", "Paris"); ("Thought", "Thought: done")]
                   = PDict [("Action", "tool"); ("Tool", t); ("Input", i); ("Thought", th)]) \/
   (exists ans th, PDict [("Action", "answer"); ("Answer", "Paris"); ("Thought", "Thought: done")]
                   = PDict [("Action", "answer"); ("Answer", ans); ("Thought", th)])).
Proof.
  assert (H : snd (parse_output ("Thought: done" ++ NL ++ "Final Answer: Paris"))
              = inr (PDict [("Action", "answer"); ("Answer", "Paris"); ("Thought", "Thought: done")]))
    by (vm_compute; reflexivity).
  split; [exact H | exact (parse_output_result_shape _ _ H)].
Defined.

Lemma parse_output_final_answer_line_witness :
  splitlines ("Thought: done" ++ NL ++ "Final Answer: It is noon" ++ NL ++ "Action: ignored")
  = (["Thought: done"] ++ "Final Answer: It is noon" :: ["Action: ignored"])%list /\
  parse_output ("Thought: done" ++ NL ++ "Final Answer: It is noon" ++ NL ++ "Action: ignored") =
    ([], inr (PDict [("Action", "answer");
                     ("Answer", strip (nth 1 (split COLON "Final Answer: It is noon") ""));
                     ("Thought", join NL ["Thought: done"])])).
Proof.
  assert (H : splitlines ("Thought: done" ++ NL ++ "Final Answer: It is noon" ++ NL ++ "Action: ignored")
              = (["Thought: done"] ++ "Final Answer: It is noon" :: ["Action: ignored"])%list)
    by (vm_compute; reflexivity).
  split; [exact H|].
  apply (parse_output_final_answer_line _ _ _ _ H); vm_compute; repeat constructor.
Defined.

Lemma parse_output_action_lines_witness :
  splitlines ("Thought: look it up" ++ NL ++ "Action: Search" ++ NL ++ "Input: Paris" ++ NL ++
              "in France" ++ NL ++ "Observation: x")
  = (["Thought: look it up"] ++ "Action: Search" :: "Input: Paris" :: ["in France"; "Observation: x"])%list /\
  parse_output ("Thought: look it up" ++ NL ++ "Action: Search" ++ NL ++ "Input: Paris" ++ NL ++
                "in France" ++ NL ++ "Observation: x") =
    (if String.eqb (strip (pre_colon "Input: Paris")) "Action Input" then []
     else [EPrint (PStr "Possible problem parsing action input")],
     inr (PDict [("Action", "tool"); ("Tool", strip (join ":" (skipn 1 (split COLON "Action: Search"))));
                 ("Input", strip (nth 1 (split COLON "Input: Paris") "")
                           ++ input_tail ["in France"; "Observation: x"]);
                 ("Thought", join NL ["Thought: look it up"])])).
Proof.
  assert (H : splitlines ("Thought: look it up" ++ NL ++ "Action: Search" ++ NL ++ "Input: Paris" ++ NL ++
                          "in France" ++ NL ++ "Observation: x")
              = (["Thought: look it up"] ++ "Action: Search" :: "Input: Paris"
                   :: ["in France"; "Observation: x"])%list)
    by (vm_compute; reflexivity).
  split; [exact H|].
  apply (parse_output_action_lines _ _ _ _ _ H); vm_compute; repeat constructor.
Defined.

Lemma parse_output_action_unfinished_witness :
  splitlines ("Thought: search" ++ NL ++ "Action: Search")
  = (["Thought: search"] ++ "Action: Search" :: [])%list /\
  snd (parse_output ("Thought: search" ++ NL ++ "Action: Search"))
  = inl (mkExc IndexError "list index out of range").
Proof.
  assert (H : splitlines ("Thought: search" ++ NL ++ "Action: Search")
              = (["Thought: search"] ++ "Action: Search" :: [])%list)
    by (vm_compute; reflexivity).
  split; [exact H|].
  apply (parse_output_action_unfinished _ _ _ _ H); vm_compute; repeat constructor.
Defined.

(** An iteration that goes on has called the model once and at most one
    tool, kept the agent, and appended to the prompt a
    Thought/Action/Action Input/Observation block whose observation is
    never empty. *)
Theorem loop_body_continue {LS} (s s' : RunState LS) (evs : list event) :
  loop_body s = (evs, inr (Continue s')) ->
  count_llm_calls evs = 1 /\ count_tool_calls evs <= 1 /\ rs_agent s' = rs_agent s /\
  exists th t i obs, obs <> "" /\
    rs_prompt s' = rs_prompt s ++ th ++ NL ++ "Action: " ++ t ++ NL ++ "Action Input: " ++ i ++ NL
                   ++ "Observation: " ++ obs ++ NL.
Proof.
  intros E. pose proof (loop_body_ok s) as B. rewrite E in B. unfold body_ok in B.
  cbn [fst snd] in B. destruct B as (C1 & C2 & Ha & Hp). auto.
Qed.

Lemma loop_body_continue_witness :
  exists evs s', loop_body (mkRunState stub_agent 0 stub_prompt0) = (evs, inr (Continue s')) /\
  count_llm_calls evs = 1 /\ count_tool_calls evs <= 1 /\ rs_agent s' = stub_agent /\
  exists th t i obs, obs <> "" /\
    rs_prompt s' = stub_prompt0 ++ th ++ NL ++ "Action: " ++ t ++ NL ++ "Action Input: " ++ i ++ NL
                   ++ "Observation: " ++ obs ++ NL.
Proof.
  destruct (loop_body (mkRunState stub_agent 0 stub_prompt0)) as [evs [e|[s'|res s']]] eqn:E;
    [vm_compute in E; discriminate | | vm_compute in E; discriminate].
  exists evs, s'. split; [reflexivity|].
  exact (loop_body_continue (mkRunState stub_agent 0 stub_prompt0) s' evs E).
Defined.

(** When [run] returns, [full_text] is the final prompt: the initial
    prompt, then what the iterations appended, ending in a newline,
    ["Final Answer: "] and the returned [response]. *)
Theorem run_full_text {LS} (fuel : nat) (a : Agent LS) (ls : LS) (question : string)
    (evs : list event) (s' : RunState LS) (res : RunResult) :
  run fuel a ls question = Some (evs, inr (s', Some res)) ->
  exists p0, create_prompt a question PREFIX SUFFIX INSTRUCTIONS = Some (inr p0) /\
    full_text res = rs_prompt s' /\
    exists w, full_text res = p0 ++ w ++ NL ++ "Final Answer: " ++ response res.
Proof.
  intros H. destruct (run_cases fuel a ls question evs _ H) as [(e & _ & _ & [=])|(p0 & o1 & Hc & _ & _ & Hr)].
  exists p0. split; [exact Hc|].
  pose proof (proj2 (run_loop_ok fuel (mkRunState a ls p0))) as R.
  rewrite <- Hr in R. exact R.
Qed.

Lemma run_full_text_witness :
  exists evs s' res, run 2 stub_agent 0 QUESTION = Some (evs, inr (s', Some res)) /\
  exists p0, create_prompt stub_agent QUESTION PREFIX SUFFIX INSTRUCTIONS = Some (inr p0) /\
    full_text res = rs_prompt s' /\
    exists w, full_text res = p0 ++ w ++ NL ++ "Final Answer: " ++ response res.
Proof.
  destruct (run 2 stub_agent 0 QUESTION) as [[evs [e|[s' [res|]]]]|] eqn:E;
    [vm_compute in E; discriminate | | vm_compute in E; discriminate | vm_compute in E; discriminate].
  exists evs, s', res. split; [reflexivity|]. exact (run_full_text 2 stub_agent 0 QUESTION evs s' res E).
Defined.

(** [run] never calls tools more often than the model: each iteration
    calls the model once and at most one tool. *)
Theorem run_tool_calls_le_llm_calls {LS} (fuel : nat) (a : Agent LS) (ls : LS) (question : string)
    (evs : list event) (r : PyExc + (RunState LS * option RunResult)) :
  run fuel a ls question = Some (evs, r) -> count_tool_calls evs <= count_llm_calls evs.
Proof.
  intros H. destruct (run_cases fuel a ls question evs _ H) as [(e & _ & -> & _)|(p0 & o1 & _ & Ho & -> & _)].
  - reflexivity.
  - rewrite count_tool_calls_app, count_llm_calls_app.
    pose proof (proj1 (run_loop_ok fuel (mkRunState a ls p0))) as R.
    subst o1. destruct (verbose a); cbn; lia.
Qed.

Lemma run_tool_calls_le_llm_calls_witness :
  exists evs r, run 2 stub_agent 0 QUESTION = Some (evs, r) /\ count_tool_calls evs <= count_llm_calls evs.
Proof.
  destruct (run 2 stub_agent 0 QUESTION) as [[evs r]|] eqn:E; [|vm_compute in E; discriminate].
  exists evs, r. split; [reflexivity|]. exact (run_tool_calls_le_llm_calls 2 stub_agent 0 QUESTION evs r E).
Defined.

(** A non-verbose agent's [run] prints nothing but the parser's warning
    ["Possible problem parsing action input"]. *)
Theorem run_non_verbose_silent {LS} (fuel : nat) (a : Agent LS) (ls : LS) (question : string)
    (evs : list event) (r : PyExc + (RunState LS * option RunResult)) :
  verbose a = false -> run fuel a ls question = Some (evs, r) ->
  Forall (fun ev => non_verbose_event ev = true) evs.
Proof.
  intros Hv H. destruct (run_cases fuel a ls question evs _ H) as [(e & _ & -> & _)|(p0 & o1 & _ & Ho & -> & _)].
  - constructor.
  - rewrite Hv in Ho. subst o1. exact (run_loop_non_verbose fuel (mkRunState a ls p0) Hv).
Qed.

Lemma run_non_verbose_silent_witness :
  exists evs r, verbose stub_agent = false /\ run 2 stub_agent 0 QUESTION = Some (evs, r) /\
  Forall (fun ev => non_verbose_event ev = true) evs.
Proof.
  destruct (run 2 stub_agent 0 QUESTION) as [[evs r]|] eqn:E; [|vm_compute in E; discriminate].
  exists evs, r. split; [reflexivity|]. split; [reflexivity|].
  exact (run_non_verbose_silent 2 stub_agent 0 QUESTION evs r eq_refl E).
Defined.

(** With the default prefix, instructions and suffix, and tools whose
    names and descriptions hold no brace, the prompt is the prefix, the
    tool lines, the instructions with [str(tool_names)] in place and the
    suffix with the question in place, the question copied as it is
    (braces in it included). *)
Theorem create_prompt_default {LS} (a : Agent LS) (question : string) :
  Forall (fun t => brace_free (name t) = true /\ brace_free (description t) = true) (tools a) ->
  create_prompt a question PREFIX SUFFIX INSTRUCTIONS =
  Some (inr (PREFIX ++ NL ++ NL ++ tool_descriptions a ++ NL ++ NL
             ++ (INSTRUCTIONS_HEAD ++ repr_list (tool_names a) ++ INSTRUCTIONS_TAIL) ++ NL ++ NL
             ++ (SUFFIX_HEAD ++ question ++ NL))).
Proof.
  intros Hb. set (tn := repr_list (tool_names a)).
  pose proof (renders_NL question tn) as N.
  assert (R : renders question tn
                (PREFIX ++ NL ++ NL ++ tool_descriptions a ++ NL ++ NL ++ INSTRUCTIONS ++ NL ++ NL ++ SUFFIX)
                (PREFIX ++ NL ++ NL ++ tool_descriptions a ++ NL ++ NL
                 ++ (INSTRUCTIONS_HEAD ++ tn ++ INSTRUCTIONS_TAIL) ++ NL ++ NL
                 ++ (SUFFIX_HEAD ++ question ++ NL))).
  { rewrite INSTRUCTIONS_split, SUFFIX_split.
    apply renders_app; [apply renders_brace_free; vm_compute; reflexivity|].
    apply renders_app; [exact N|]. apply renders_app; [exact N|].
    apply renders_app; [now apply renders_tool_descriptions|].
    apply renders_app; [exact N|]. apply renders_app; [exact N|].
    apply renders_app.
    { apply renders_app; [apply renders_brace_free; vm_compute; reflexivity|].
      apply renders_tool_names, renders_brace_free. vm_compute. reflexivity. }
    apply renders_app; [exact N|]. apply renders_app; [exact N|].
    apply renders_app; [apply renders_brace_free; vm_compute; reflexivity|].
    apply renders_question. exact N. }
  pose proof (format_aux_renders _ _ _ _ R "" "") as F.
  rewrite append_nil_r in F. unfold create_prompt, format.
  unfold prompt_kw, tn in F. rewrite F. reflexivity.
Qed.

Lemma create_prompt_default_witness :
  Forall (fun t => brace_free (name t) = true /\ brace_free (description t) = true) (tools stub_agent) /\
  create_prompt stub_agent "What is {this}?" PREFIX SUFFIX INSTRUCTIONS =
  Some (inr (PREFIX ++ NL ++ NL ++ tool_descriptions stub_agent ++ NL ++ NL
             ++ (INSTRUCTIONS_HEAD ++ repr_list (tool_names stub_agent) ++ INSTRUCTIONS_TAIL) ++ NL ++ NL
             ++ (SUFFIX_HEAD ++ "What is {this}?" ++ NL))).
Proof.
  assert (H : Forall (fun t => brace_free (name t) = true /\ brace_free (description t) = true)
                (tools stub_agent)) by (repeat constructor).
  split; [exact H | exact (create_prompt_default stub_agent "What is {this}?" H)].
Defined.
